(** * utimes: setting btime / mtime / atime on one or more paths

    A shallow embedding of [src/index.js] and the properties of its
    validation, plan building, platform dispatch and native-call adapter.

    Conventions of the embedding:
    - a JavaScript string is its sequence of UTF-16 code units ([jsstring]);
      error messages and property names, which the source only builds from
      ASCII literals and decimal indices, are Rocq strings;
    - a JavaScript number is an exact rational or one of NaN, +Infinity,
      -Infinity; every finite double is such a rational, and the quotient
      [x / 1000] is rounded to the nearest binary64 number, ties to even;
    - a thrown exception (a rejected promise, [set] being [async]) is the
      [Err] branch of [Result];
    - the filesystem, the native binding, [process.platform] and
      [path._makeLong] are the capabilities of a [Host]; every call to one of
      them is appended to a trace. *)

From Stdlib Require Import ZArith QArith Qround Qabs List Bool Lia Lqa.
From stdpp Require Import base list strings gmap pretty.

Set Warnings "-register-all".
Local Open Scope Z_scope.

(** ** JavaScript values *)

(** UTF-16 code units. *)
Definition jsstring := list Z.

(** An ASCII literal as a JavaScript string. *)
Definition str (s : string) : jsstring :=
  map (fun a => Z.of_N (Ascii.N_of_ascii a)) (String.list_ascii_of_string s).

Inductive JsNumber :=
| Num (q : Q)
| NaN
| PosInf
| NegInf.

Inductive JsValue :=
| JUndefined
| JNull
| JBool (b : bool)
| JNum (n : JsNumber)
| JBigInt (z : Z)
| JStr (s : jsstring)
| JSymbol
| JFunction
| JArr (elems : list JsValue)
| JObj (props : list (string * JsValue)).

(** The [typeof] operator. *)
Definition typeof (v : JsValue) : string :=
  match v with
  | JUndefined => "undefined"
  | JNull => "object"
  | JBool _ => "boolean"
  | JNum _ => "number"
  | JBigInt _ => "bigint"
  | JStr _ => "string"
  | JSymbol => "symbol"
  | JFunction => "function"
  | JArr _ => "object"
  | JObj _ => "object"
  end.

(** ** Numbers *)

Definition Qltb (x y : Q) : bool :=
  (Qnum x * QDen y <? Qnum y * QDen x)%Z.

(** [a < b] on numbers: false as soon as one side is NaN. *)
Definition js_lt (a b : JsNumber) : bool :=
  match a, b with
  | NaN, _ | _, NaN => false
  | Num x, Num y => Qltb x y
  | NegInf, NegInf => false
  | NegInf, _ => true
  | _, NegInf => false
  | PosInf, _ => false
  | Num _, PosInf => true
  end.

(** [a > b]. *)
Definition js_gt (a b : JsNumber) : bool := js_lt b a.

(** [a !== b] on two numbers. *)
Definition js_strict_neq (a b : JsNumber) : bool :=
  match a, b with
  | Num x, Num y => negb (Qeq_bool x y)
  | PosInf, PosInf => false
  | NegInf, NegInf => false
  | _, _ => true
  end.

(** [Math.floor]. *)
Definition Math_floor (n : JsNumber) : JsNumber :=
  match n with
  | Num q => Num (inject_Z (Qfloor q))
  | other => other
  end.

(** [Math.pow(2, 48)]. *)
Definition Math_pow_2_48 : Z := 2 ^ 48.

(** Truthiness of a number: neither zero nor NaN. *)
Definition num_truthy (n : JsNumber) : bool :=
  match n with
  | Num q => negb (Qeq_bool q 0)
  | NaN => false
  | PosInf | NegInf => true
  end.

(** 2^e as a rational, for every integer [e]. *)
Definition pow2 (e : Z) : Q :=
  if 0 <=? e then inject_Z (2 ^ e) else / inject_Z (2 ^ (- e)).

(** [n / d] rounded to the nearest integer, ties to even, for [d > 0]. *)
Definition div_rne (n d : Z) : Z :=
  let q := n / d in
  let r := n mod d in
  if 2 * r <? d then q
  else if d <? 2 * r then q + 1
  else if Z.even q then q else q + 1.

(** Enough binary places for the smallest binary64 number. *)
Definition SHIFT : Z := 1100.

(** The binary64 number nearest to [n / d], ties to even, for [n > 0] and
    [d > 0]: with [k] the binary exponent of the quotient, the quotient is
    rounded to a multiple of [2^e], [e = max (k - 52) (-1074)]; what reaches
    [2^1024] is +Infinity. *)
Definition round_pos (n d : Z) : JsNumber :=
  let t := (n * 2 ^ SHIFT) / d in
  if t =? 0 then Num 0
  else
    let k := Z.log2 t - SHIFT in
    let e := Z.max (k - 52) (-1074) in
    let m := div_rne (n * 2 ^ SHIFT) (d * 2 ^ (e + SHIFT)) in
    let a := (inject_Z m * pow2 e)%Q in
    if Qle_bool (pow2 1024) a then PosInf else Num (Qred a).

(** Unary minus. *)
Definition js_neg (n : JsNumber) : JsNumber :=
  match n with
  | Num q => Num (- q)
  | NaN => NaN
  | PosInf => NegInf
  | NegInf => PosInf
  end.

(** The number a real result [x] becomes: the nearest binary64 number. *)
Definition to_double (x : Q) : JsNumber :=
  match Qnum x with
  | 0 => Num 0
  | Zpos n => round_pos (Zpos n) (QDen x)
  | Zneg n => js_neg (round_pos (Zpos n) (QDen x))
  end.

(** [n / 1000]: the exact quotient, rounded. *)
Definition div1000 (n : JsNumber) : JsNumber :=
  match n with
  | Num q => to_double (q / inject_Z 1000)
  | other => other
  end.

(** ** Errors *)

Inductive Error :=
| Error_ (message : string)
    (* [new Error(message)] *)
| TypeError_property (prop : string) (base : JsValue)
    (* the runtime's TypeError for reading [base.prop] with [base] null or
       undefined *)
| NativeError (result : Z) (path : jsstring)
    (* [new Error(`(${result}), utimes(${path})`)] *)
| SystemError (syscall : string) (errno : Z) (path : jsstring).
    (* the rejection of [fs.stat] or [fs.utimes] *)

Inductive Result (A : Type) :=
| Ok (a : A)
| Err (e : Error).
Arguments Ok {A} a.
Arguments Err {A} e.

Definition rbind {A B} (r : Result A) (k : A -> Result B) : Result B :=
  match r with
  | Ok a => k a
  | Err e => Err e
  end.

Notation "'try' x <- r ; k" := (rbind r (fun x => k))
  (at level 10, x name, r at level 100, k at level 200).
Notation "'try_' r ; k" := (rbind r (fun _ => k))
  (at level 10, r at level 100, k at level 200).

(** ** Input Normalizer *)

(** [l.indexOf(x)] on a string (code units) or a Buffer (bytes): the first
    index holding [x], or -1. *)
Fixpoint indexOf (x : Z) (l : list Z) : Z :=
  match l with
  | [] => -1
  | y :: rest =>
      if y =? x then 0
      else let i := indexOf x rest in
           if i =? -1 then -1 else i + 1
  end.

(** [assertPath(key, value)]; on success the value, known to be a string. *)
Definition assertPath (key : string) (value : JsValue) : Result jsstring :=
  match value with
  | JStr s =>
      if Z.of_nat (length s) =? 0 then
        Err (Error_ (key +:+ " must not be empty"))
      else if negb (indexOf 0 s =? -1) then
        Err (Error_ (key +:+ " must be a string without null bytes"))
      else Ok s
  | _ => Err (Error_ (key +:+ " must be a string"))
  end.

(** The template literal [`paths[${i}]`]. *)
Definition paths_key (i : nat) : string :=
  "paths[" +:+ pretty i +:+ "]".

(** The loop of [normalizePaths] from index [i] on. *)
Fixpoint assertPaths (i : nat) (paths : list JsValue) : Result (list jsstring) :=
  match paths with
  | [] => Ok []
  | path :: rest =>
      try p <- assertPath (paths_key i) path;
      try ps <- assertPaths (S i) rest;
      Ok (p :: ps)
  end.

Definition normalizePaths (paths : JsValue) : Result (list jsstring) :=
  match paths with
  | JStr _ =>
      try p <- assertPath "path" paths;
      Ok [p]
  | JArr elems => assertPaths 0 elems
  | _ => Err (Error_ "path must be a string or array")
  end.

(** [assertTime(key, value)]. The last message is the number NaN: the
    source's argument parses as [(key + '...' + Math.pow(2, 48)) - 1], a
    string that is no numeric literal minus one. *)
Definition assertTime (key : string) (value : JsValue) : Result unit :=
  match value with
  | JUndefined => Ok tt
  | JNum n =>
      if js_strict_neq (Math_floor n) n then
        Err (Error_ (key +:+ " must be an integer"))
      else if js_lt n (Num 0) then
        Err (Error_ (key +:+ " must be a positive integer"))
      else if js_gt n (Num (inject_Z (Math_pow_2_48 - 1))) then
        Err (Error_ "NaN")
      else Ok tt
  | _ => Err (Error_ (key +:+ " must be a number or undefined"))
  end.

(** ** Plan Builder *)

Record FullTimes := {
  btime : JsNumber;
  mtime : JsNumber;
  atime : JsNumber
}.

Fixpoint assoc (name : string) (props : list (string * JsValue)) : JsValue :=
  match props with
  | [] => JUndefined
  | (k, v) :: rest => if String.eqb k name then v else assoc name rest
  end.

(** Reading [base.prop] for the own data properties the model has. *)
Definition get_prop (base : JsValue) (prop : string) : Result JsValue :=
  match base with
  | JUndefined | JNull => Err (TypeError_property prop base)
  | JObj props => Ok (assoc prop props)
  | _ => Ok JUndefined
  end.

(** [value || 0] for a value that passed [assertTime] (undefined or a
    number); other falsy values give 0 as well. *)
Definition or_zero (value : JsValue) : JsNumber :=
  match value with
  | JNum n => if num_truthy n then n else Num 0
  | _ => Num 0
  end.

Definition getFullOptions (options : JsValue) : Result FullTimes :=
  if negb (String.eqb (typeof options) "object") then
    Err (Error_ "options must be an object")
  else
    try b <- get_prop options "btime";
    try_ assertTime "btime" b;
    try m <- get_prop options "mtime";
    try_ assertTime "mtime" m;
    try a <- get_prop options "atime";
    try_ assertTime "atime" a;
    Ok {| btime := or_zero b; mtime := or_zero m; atime := or_zero a |}.

Definition getFlags (options : FullTimes) : Z :=
  let flags := 0 in
  let flags := if num_truthy (btime options) then Z.lor flags 1 else flags in
  let flags := if num_truthy (mtime options) then Z.lor flags 2 else flags in
  let flags := if num_truthy (atime options) then Z.lor flags 4 else flags in
  flags.

(** ** Native Call Adapter: the path buffer *)

(** The code points of a string: a high surrogate followed by a low one is
    one supplementary code point, a lone surrogate is replaced by U+FFFD. *)
Definition is_high_surrogate (u : Z) : bool := (0xD800 <=? u) && (u <=? 0xDBFF).
Definition is_low_surrogate (u : Z) : bool := (0xDC00 <=? u) && (u <=? 0xDFFF).

Fixpoint code_points (s : jsstring) : list Z :=
  match s with
  | [] => []
  | u :: rest =>
      if is_high_surrogate u then
        match rest with
        | v :: rest' =>
            if is_low_surrogate v then
              (0x10000 + Z.shiftl (u - 0xD800) 10 + (v - 0xDC00)) :: code_points rest'
            else 0xFFFD :: code_points rest
        | [] => 0xFFFD :: code_points rest
        end
      else if is_low_surrogate u then 0xFFFD :: code_points rest
      else u :: code_points rest
  end.

(** The UTF-8 bytes of one code point. *)
Definition utf8_char (c : Z) : list Z :=
  if c <? 0x80 then [c]
  else if c <? 0x800 then
    [Z.lor 0xC0 (Z.shiftr c 6); Z.lor 0x80 (Z.land c 0x3F)]
  else if c <? 0x10000 then
    [Z.lor 0xE0 (Z.shiftr c 12); Z.lor 0x80 (Z.land (Z.shiftr c 6) 0x3F);
     Z.lor 0x80 (Z.land c 0x3F)]
  else
    [Z.lor 0xF0 (Z.shiftr c 18); Z.lor 0x80 (Z.land (Z.shiftr c 12) 0x3F);
     Z.lor 0x80 (Z.land (Z.shiftr c 6) 0x3F); Z.lor 0x80 (Z.land c 0x3F)].

Definition utf8 (s : jsstring) : list Z :=
  concat (map utf8_char (code_points s)).

(** [Buffer.byteLength(s, 'utf-8')]. *)
Definition Buffer_byteLength (s : jsstring) : nat := length (utf8 s).

(** [Buffer.alloc(n)]: [n] zero bytes. *)
Definition Buffer_alloc (n : nat) : list Z := replicate n 0.

(** The bytes of the longest run of leading characters that fits in [room]
    bytes: [buffer.write] never writes part of a character. *)
Fixpoint utf8_fit (chars : list Z) (room : nat) : list Z :=
  match chars with
  | [] => []
  | c :: rest =>
      let bytes := utf8_char c in
      if (length bytes <=? room)%nat
      then bytes ++ utf8_fit rest (room - length bytes)
      else []
  end.

(** [buffer.write(s, offset, len, 'utf-8')] for an [offset] and a [len]
    inside the buffer. *)
Definition Buffer_write (buffer : list Z) (s : jsstring) (offset len : nat) : list Z :=
  let written := utf8_fit (code_points s) len in
  take offset buffer ++ written ++ drop (offset + length written) buffer.

(** ** The host: platform, filesystem and native binding *)

(** What [set] reads of the result of [fs.stat]: [stats.mtime.getTime()]. *)
Record Stats := { mtime_getTime : JsNumber }.

(** The outcome of a system call: its result or an error number. *)
Inductive Sys (A : Type) :=
| Done (a : A)
| Errno (code : Z).
Arguments Done {A} a.
Arguments Errno {A} code.

Class Host (W : Type) := {
  platform : string;
    (* [process.platform] *)
  makeLong : jsstring -> jsstring;
    (* [path._makeLong] *)
  fs_stat : jsstring -> W -> Sys Stats;
    (* [fs.stat(path)] *)
  fs_utimes : jsstring -> JsNumber -> JsNumber -> W -> Sys W;
    (* [fs.utimes(path, atime, mtime)], in seconds *)
  binding_utimes : list Z -> Z -> JsNumber -> JsNumber -> JsNumber -> W -> Z * W
    (* [binding.utimes(buffer, flags, btime, mtime, atime, callback)]: the
       status given to the callback *)
}.

(** The calls made to the host, in order. *)
Inductive FsOp :=
| OpStat (path : jsstring)
| OpUtimes (path : jsstring) (atime mtime : JsNumber)
| OpBinding (buffer : list Z) (flags : Z) (btime mtime atime : JsNumber).

Record State (W : Type) := {
  world : W;
  trace : list FsOp
}.
Arguments world {W} s.
Arguments trace {W} s.

(** An awaited computation: a result or a rejection, and the state it leaves. *)
Definition Async (W A : Type) : Type := State W -> Result A * State W.

Definition resolve {W A} (a : A) : Async W A := fun s => (Ok a, s).
Definition reject {W A} (e : Error) : Async W A := fun s => (Err e, s).

Definition then_ {W A B} (m : Async W A) (k : A -> Async W B) : Async W B :=
  fun s =>
    match m s with
    | (Ok a, s') => k a s'
    | (Err e, s') => (Err e, s')
    end.

Notation "'await' x <- m ; k" := (then_ m (fun x => k))
  (at level 10, x name, m at level 100, k at level 200).
Notation "'await_' m ; k" := (then_ m (fun _ => k))
  (at level 10, m at level 100, k at level 200).

Section Setter.
Context {W : Type} {H : Host W}.

(** The promisified [fs.stat]. *)
Definition stat (target : jsstring) : Async W Stats :=
  fun s =>
    let s' := {| world := world s; trace := trace s ++ [OpStat target] |} in
    match fs_stat target (world s) with
    | Done stats => (Ok stats, s')
    | Errno code => (Err (SystemError "stat" code target), s')
    end.

(** The promisified [fs.utimes]. *)
Definition utimes (target : jsstring) (atime mtime : JsNumber) : Async W unit :=
  fun s =>
    let tr := trace s ++ [OpUtimes target atime mtime] in
    match fs_utimes target atime mtime (world s) with
    | Done w' => (Ok tt, {| world := w'; trace := tr |})
    | Errno code =>
        (Err (SystemError "utimes" code target), {| world := world s; trace := tr |})
    end.

Definition pathBuffer (target : jsstring) : Result (list Z) :=
  let targetLong := makeLong target in
  let buffer := Buffer_alloc (Buffer_byteLength targetLong + 1) in
  let buffer := Buffer_write buffer targetLong 0 (length buffer - 1) in
  let buffer := <[(length buffer - 1)%nat := 0]> buffer in
  if negb (indexOf 0 buffer =? Z.of_nat (length buffer) - 1) then
    Err (Error_ "path must be a string without null bytes")
  else Ok buffer.

(** [callBinding]: a throw of [pathBuffer] inside the promise executor
    rejects the promise before the binding is called. *)
Definition callBinding (path : jsstring) (times : FullTimes) (flags : Z) : Async W unit :=
  fun s =>
    match pathBuffer path with
    | Err e => (Err e, s)
    | Ok buffer =>
        let (result, w') :=
          binding_utimes buffer flags (btime times) (mtime times) (atime times) (world s) in
        let s' := {| world := w';
                     trace := trace s ++ [OpBinding buffer flags (btime times)
                                            (mtime times) (atime times)] |} in
        if negb (result =? 0) then (Err (NativeError result path), s')
        else (Ok tt, s')
    end.

(** The body of the [for] loop of [set]. *)
Definition set_target (target : jsstring) (times : FullTimes) (flags : Z) : Async W unit :=
  if String.eqb platform "win32" || String.eqb platform "darwin" then
    callBinding target times flags
  else if negb (Z.land flags 2 =? 0) then
    let atime := if negb (Z.land flags 4 =? 0) then atime times else mtime times in
    utimes target (div1000 atime) (div1000 (mtime times))
  else
    await stats <- stat target;
    let mtime := mtime_getTime stats in
    utimes target (div1000 (atime times)) (div1000 mtime).

Fixpoint set_targets (targets : list jsstring) (times : FullTimes) (flags : Z) : Async W unit :=
  match targets with
  | [] => resolve tt
  | target :: rest =>
      await_ set_target target times flags;
      set_targets rest times flags
  end.

Definition set (paths options : JsValue) : Async W unit :=
  fun s =>
    match normalizePaths paths with
    | Err e => (Err e, s)
    | Ok targets =>
        match getFullOptions options with
        | Err e => (Err e, s)
        | Ok times =>
            let flags := getFlags times in
            if (flags =? 0) || (Z.of_nat (length targets) =? 0) then (Ok tt, s)
            else set_targets targets times flags s
        end
    end.

End Setter.

(** ** A reference host: a coarse disk with millisecond timestamps

    The contracts of the three external capabilities, on a finite map from
    paths to timestamps in milliseconds: [stat] reads, the combined setter
    writes atime and mtime together, the native setter writes the fields
    whose mask bit is set. A path that is not on the disk gives ENOENT. *)

Record FileTimes := {
  file_btime : Z;
  file_mtime : Z;
  file_atime : Z
}.

Definition ENOENT : Z := -2.
Definition EINVAL : Z := -22.

(** Milliseconds of a finite number; nothing for NaN and the infinities. *)
Definition to_ms (n : JsNumber) : option Z :=
  match n with
  | Num q => Some (Qfloor q)
  | _ => None
  end.

(** Milliseconds of a time given in seconds. *)
Definition seconds_to_ms (n : JsNumber) : option Z :=
  match n with
  | Num q => Some (Qfloor (q * inject_Z 1000))
  | _ => None
  end.

Definition disk_stat (path : jsstring) (d : gmap jsstring FileTimes) : Sys Stats :=
  match d !! path with
  | Some f => Done {| mtime_getTime := Num (inject_Z (file_mtime f)) |}
  | None => Errno ENOENT
  end.

Definition disk_utimes (path : jsstring) (atime mtime : JsNumber)
    (d : gmap jsstring FileTimes) : Sys (gmap jsstring FileTimes) :=
  match d !! path with
  | Some f =>
      match seconds_to_ms atime, seconds_to_ms mtime with
      | Some a, Some m =>
          Done (<[path := {| file_btime := file_btime f; file_mtime := m;
                             file_atime := a |}]> d)
      | _, _ => Errno EINVAL
      end
  | None => Errno ENOENT
  end.

(** The native setter finds the file whose long path has the given
    null-terminated UTF-8 bytes. *)
Definition disk_binding (long : jsstring -> jsstring) (buffer : list Z) (flags : Z)
    (btime mtime atime : JsNumber) (d : gmap jsstring FileTimes)
    : Z * gmap jsstring FileTimes :=
  match list_find (fun kv => bool_decide (utf8 (long (fst kv)) ++ [0] = buffer))
                  (map_to_list d) with
  | Some (_, (path, f)) =>
      match to_ms btime, to_ms mtime, to_ms atime with
      | Some b, Some m, Some a =>
          (0, <[path := {| file_btime := if Z.testbit flags 0 then b else file_btime f;
                           file_mtime := if Z.testbit flags 1 then m else file_mtime f;
                           file_atime := if Z.testbit flags 2 then a else file_atime f |}]> d)
      | _, _, _ => (EINVAL, d)
      end
  | None => (ENOENT, d)
  end.

(** A POSIX host: [path._makeLong] is the identity there. *)
Definition posix_host (name : string) : Host (gmap jsstring FileTimes) := {|
  platform := name;
  makeLong := fun p => p;
  fs_stat := disk_stat;
  fs_utimes := disk_utimes;
  binding_utimes := disk_binding (fun p => p)
|}.

Definition linux : Host (gmap jsstring FileTimes) := posix_host "linux".
Definition darwin : Host (gmap jsstring FileTimes) := posix_host "darwin".

(** Options and states of the examples. *)
Definition ms (z : Z) : JsValue := JNum (Num (inject_Z z)).

Definition start {W} (w : W) : State W := {| world := w; trace := [] |}.

Definition one_file (path : jsstring) (f : FileTimes) : gmap jsstring FileTimes :=
  {[ path := f ]}.

Definition T0 : FileTimes :=
  {| file_btime := 1000; file_mtime := 2000; file_atime := 3000 |}.

(** ** A second reference host: a disk with nanosecond timestamps

    Timestamps are whole nanoseconds. [stat] gives the Date of the mtime,
    whose [getTime()] is the timestamp rounded to the millisecond; the
    combined setter keeps the whole nanoseconds of the seconds it is given;
    the native setter is given milliseconds. *)

Record Inode := {
  inode_btime : Z;
  inode_mtime : Z;
  inode_atime : Z
}.

(** The milliseconds a Date shows of a timestamp in nanoseconds. *)
Definition ms_reading (ns : Z) : Z := (ns + 500000) / 1000000.

(** Whole nanoseconds of a time given in seconds. *)
Definition seconds_to_ns (n : JsNumber) : option Z :=
  match n with
  | Num q => Some (Qfloor (q * inject_Z 1000000000))
  | _ => None
  end.

Definition nano_stat (path : jsstring) (d : gmap jsstring Inode) : Sys Stats :=
  match d !! path with
  | Some f => Done {| mtime_getTime := Num (inject_Z (ms_reading (inode_mtime f))) |}
  | None => Errno ENOENT
  end.

Definition nano_utimes (path : jsstring) (atime mtime : JsNumber)
    (d : gmap jsstring Inode) : Sys (gmap jsstring Inode) :=
  match d !! path with
  | Some f =>
      match seconds_to_ns atime, seconds_to_ns mtime with
      | Some a, Some m =>
          Done (<[path := {| inode_btime := inode_btime f; inode_mtime := m;
                             inode_atime := a |}]> d)
      | _, _ => Errno EINVAL
      end
  | None => Errno ENOENT
  end.

Definition nano_binding (long : jsstring -> jsstring) (buffer : list Z) (flags : Z)
    (btime mtime atime : JsNumber) (d : gmap jsstring Inode)
    : Z * gmap jsstring Inode :=
  match list_find (fun kv => bool_decide (utf8 (long (fst kv)) ++ [0] = buffer))
                  (map_to_list d) with
  | Some (_, (path, f)) =>
      match to_ms btime, to_ms mtime, to_ms atime with
      | Some b, Some m, Some a =>
          (0, <[path := {| inode_btime := if Z.testbit flags 0 then b * 1000000
                                          else inode_btime f;
                           inode_mtime := if Z.testbit flags 1 then m * 1000000
                                          else inode_mtime f;
                           inode_atime := if Z.testbit flags 2 then a * 1000000
                                          else inode_atime f |}]> d)
      | _, _, _ => (EINVAL, d)
      end
  | None => (ENOENT, d)
  end.

Definition nano_host (name : string) : Host (gmap jsstring Inode) := {|
  platform := name;
  makeLong := fun p => p;
  fs_stat := nano_stat;
  fs_utimes := nano_utimes;
  binding_utimes := nano_binding (fun p => p)
|}.

Definition nano_linux : Host (gmap jsstring Inode) := nano_host "linux".

(** ** Vocabulary of the properties *)

(** [a] is [x] rounded to binary64, for [x] in the normal range: a multiple
    of [2^e], the spacing of the binary64 numbers in the binade of [x], at
    most half that spacing away from [x]. *)
Definition nearest_binary64 (x a : Q) : Prop :=
  exists e m : Z,
    -1074 <= e <= 971 /\
    (pow2 (e + 52) <= Qabs x)%Q /\ (Qabs x < pow2 (e + 53))%Q /\
    (a == inject_Z m * pow2 e)%Q /\
    (Qabs (a - x) <= pow2 (e - 1))%Q.

(** [a] is the binary64 value of [x]: zero for zero. *)
Definition binary64_of (x a : Q) : Prop :=
  ((x == 0)%Q /\ (a == 0)%Q) \/ nearest_binary64 x a.

(** The number [n] is the integer [z]. *)
Definition is_ms (n : JsNumber) (z : Z) : Prop :=
  exists q, n = Num q /\ (q == inject_Z z)%Q.

(** The largest time value of a Date, in milliseconds. *)
Definition MAX_DATE : Z := 8640000000000000.

(** What [assertPath] says of a value it refuses. *)
Definition path_defect (v : JsValue) : string :=
  match v with
  | JStr [] => " must not be empty"
  | JStr _ => " must be a string without null bytes"
  | _ => " must be a string"
  end.

(** Error kinds.

    The source throws plain [Error] objects; the kinds below are the sets of
    errors each validation can throw. *)

Definition InvalidPath (key : string) (e : Error) : Prop :=
  e = Error_ (key +:+ " must be a string") \/
  e = Error_ (key +:+ " must not be empty") \/
  e = Error_ (key +:+ " must be a string without null bytes").

Definition InvalidArgument (e : Error) : Prop :=
  e = Error_ "path must be a string or array" \/
  e = Error_ "options must be an object".

(** An error message that starts with the name of the field. *)
Definition identifies (key : string) (e : Error) : Prop :=
  exists rest, e = Error_ (key +:+ rest).

(** A value the path validation refuses. *)
Definition bad_path (v : JsValue) : Prop :=
  match v with
  | JStr s => s = [] \/ In 0 s
  | _ => True
  end.

(** A time value in range: an integer number of milliseconds in 48 bits. *)
Definition time_in_range (v : JsValue) : Prop :=
  exists q z, v = JNum (Num q) /\ (q == inject_Z z)%Q /\ 0 <= z <= 2 ^ 48 - 1.

(** A field that asks for nothing: absent, or zero. *)
Definition not_requested (v : JsValue) : Prop :=
  v = JUndefined \/ exists q, v = JNum (Num q) /\ (q == 0)%Q.

(** The platforms on which [set] goes through the native binding. *)
Definition native_capable {W} {H : Host W} : bool :=
  String.eqb platform "win32" || String.eqb platform "darwin".

(** The state after one more call. *)
Definition called {W} (s : State W) (ops : list FsOp) : State W :=
  {| world := world s; trace := trace s ++ ops |}.

(** A number of the plan: an integer number of milliseconds in 48 bits. *)
Definition ms_in_range (n : JsNumber) : Prop :=
  exists q z, n = Num q /\ (q == inject_Z z)%Q /\ 0 <= z <= 2 ^ 48 - 1.

(** A time value refused under the name of its field: present, and not a
    number, not an integer, or negative. *)
Definition refused_by_name (v : JsValue) : Prop :=
  v <> JUndefined /\
  (typeof v <> "number" \/
   (exists n, v = JNum n /\ js_strict_neq (Math_floor n) n = true) \/
   (exists n, v = JNum n /\ js_lt n (Num 0) = true)).

(** A call to the native binding, as opposed to one to [fs]. *)
Definition is_binding (op : FsOp) : bool :=
  match op with
  | OpBinding _ _ _ _ _ => true
  | _ => false
  end.

(** What native code reads of a buffer as a C string: the bytes before the
    first zero. *)
Definition c_string (buffer : list Z) : list Z :=
  take (Z.to_nat (indexOf 0 buffer)) buffer.

(** What the iterations of the loop do, told by the calls to the host and
    the worlds they return. *)
Section Effects.
Context {W : Type} {H : Host W}.
Variable times : FullTimes.
Variable flags : Z.

(** An iteration that succeeds on [target] in the world [w]: the calls it
    makes and the world the host returns. *)
Inductive applied (target : jsstring) (w : W) : list FsOp -> W -> Prop :=
| applied_native buffer w' :
    native_capable = true ->
    pathBuffer target = Ok buffer ->
    binding_utimes buffer flags (btime times) (mtime times) (atime times) w = (0, w') ->
    applied target w
      [OpBinding buffer flags (btime times) (mtime times) (atime times)] w'
| applied_mtime w' :
    native_capable = false ->
    Z.land flags 2 <> 0 ->
    fs_utimes target
      (div1000 (if negb (Z.land flags 4 =? 0) then atime times else mtime times))
      (div1000 (mtime times)) w = Done w' ->
    applied target w
      [OpUtimes target
         (div1000 (if negb (Z.land flags 4 =? 0) then atime times else mtime times))
         (div1000 (mtime times))] w'
| applied_atime stats w' :
    native_capable = false ->
    Z.land flags 2 = 0 ->
    fs_stat target w = Done stats ->
    fs_utimes target (div1000 (atime times)) (div1000 (mtime_getTime stats)) w
      = Done w' ->
    applied target w
      [OpStat target;
       OpUtimes target (div1000 (atime times)) (div1000 (mtime_getTime stats))] w'.

(** An iteration that fails on [target] in the world [w]: the calls it
    makes, the error and the world it leaves. *)
Inductive failed (target : jsstring) (w : W) : list FsOp -> Error -> W -> Prop :=
| failed_buffer e :
    native_capable = true ->
    pathBuffer target = Err e ->
    failed target w [] e w
| failed_native buffer status w' :
    native_capable = true ->
    pathBuffer target = Ok buffer ->
    binding_utimes buffer flags (btime times) (mtime times) (atime times) w
      = (status, w') ->
    status <> 0 ->
    failed target w
      [OpBinding buffer flags (btime times) (mtime times) (atime times)]
      (NativeError status target) w'
| failed_mtime code :
    native_capable = false ->
    Z.land flags 2 <> 0 ->
    fs_utimes target
      (div1000 (if negb (Z.land flags 4 =? 0) then atime times else mtime times))
      (div1000 (mtime times)) w = Errno code ->
    failed target w
      [OpUtimes target
         (div1000 (if negb (Z.land flags 4 =? 0) then atime times else mtime times))
         (div1000 (mtime times))]
      (SystemError "utimes" code target) w
| failed_stat code :
    native_capable = false ->
    Z.land flags 2 = 0 ->
    fs_stat target w = Errno code ->
    failed target w [OpStat target] (SystemError "stat" code target) w
| failed_atime stats code :
    native_capable = false ->
    Z.land flags 2 = 0 ->
    fs_stat target w = Done stats ->
    fs_utimes target (div1000 (atime times)) (div1000 (mtime_getTime stats)) w
      = Errno code ->
    failed target w
      [OpStat target;
       OpUtimes target (div1000 (atime times)) (div1000 (mtime_getTime stats))]
      (SystemError "utimes" code target) w.

(** Iterations that succeed one after the other on the targets of a list,
    each from the world the one before returned. *)
Inductive applied_all : list jsstring -> W -> list FsOp -> W -> Prop :=
| applied_nil w : applied_all [] w [] w
| applied_cons target rest w ops w1 ops' w2 :
    applied target w ops w1 ->
    applied_all rest w1 ops' w2 ->
    applied_all (target :: rest) w (ops ++ ops') w2.

End Effects.

(** * Properties *)

(** ** Numbers *)

Lemma Qltb_lt x y : Qltb x y = true <-> (x < y)%Q.
Proof. unfold Qltb, Qlt. apply Z.ltb_lt. Qed.

Lemma Qltb_int_l q z c : (q == inject_Z z)%Q -> Qltb q (inject_Z c) = (z <? c).
Proof.
  intros Hq. apply eq_true_iff_eq. rewrite Qltb_lt, Z.ltb_lt, Hq.
  rewrite <- Zlt_Qlt. reflexivity.
Qed.

Lemma Qltb_int_r q z c : (q == inject_Z z)%Q -> Qltb (inject_Z c) q = (c <? z).
Proof.
  intros Hq. apply eq_true_iff_eq. rewrite Qltb_lt, Z.ltb_lt, Hq.
  rewrite <- Zlt_Qlt. reflexivity.
Qed.

Lemma floor_int q z : (q == inject_Z z)%Q -> Qeq_bool (inject_Z (Qfloor q)) q = true.
Proof.
  intros Hq. apply Qeq_bool_iff.
  rewrite (Qfloor_comp _ _ Hq), Qfloor_Z. symmetry. exact Hq.
Qed.

Lemma floor_int_inv q : Qeq_bool (inject_Z (Qfloor q)) q = true ->
  (q == inject_Z (Qfloor q))%Q.
Proof. intros Hq. apply Qeq_bool_iff in Hq. symmetry. exact Hq. Qed.

(** ** Rounding to binary64 *)

Lemma inject_Z_pos z : 0 < z -> (0 < inject_Z z)%Q.
Proof. intros Hz. change 0%Q with (inject_Z 0). now rewrite <- Zlt_Qlt. Qed.

Lemma inject_Z_nonzero z : 0 < z -> ~ (inject_Z z == 0)%Q.
Proof. intros Hz Heq. apply inject_Z_pos in Hz. rewrite Heq in Hz. now apply Qlt_irrefl in Hz. Qed.

Lemma pow2_shift j S :
  0 <= S -> 0 <= j + S -> (pow2 j == inject_Z (2 ^ (j + S)) / inject_Z (2 ^ S))%Q.
Proof.
  intros HS HjS. unfold pow2.
  assert (HP : 0 < 2 ^ S) by (apply Z.pow_pos_nonneg; lia).
  pose proof (inject_Z_nonzero _ HP) as HP'.
  destruct (Z.leb_spec 0 j) as [Hj | Hj].
  - rewrite (Z.pow_add_r 2 j S Hj HS), inject_Z_mult. field. exact HP'.
  - assert (Hnj : 0 <= - j) by (clear HP HP'; lia).
    assert (Hpj : 0 < 2 ^ (- j)) by (apply Z.pow_pos_nonneg; [reflexivity | exact Hnj]).
    assert (HpjS : 0 < 2 ^ (j + S)) by (apply Z.pow_pos_nonneg; [reflexivity | exact HjS]).
    assert (HS' : 2 ^ S = 2 ^ (j + S) * 2 ^ (- j)).
    { rewrite <- (Z.pow_add_r 2 _ _ HjS Hnj). f_equal. clear. lia. }
    rewrite HS', inject_Z_mult. field.
    split; now apply inject_Z_nonzero.
Qed.

Lemma pow2_pos j : (0 < pow2 j)%Q.
Proof.
  assert (H1 : 0 <= Z.abs j) by lia.
  assert (H2 : 0 <= j + Z.abs j) by lia.
  rewrite (pow2_shift j (Z.abs j) H1 H2).
  apply Qlt_shift_div_l;
    [apply inject_Z_pos, Z.pow_pos_nonneg; [reflexivity | exact H1] |].
  rewrite Qmult_0_l. apply inject_Z_pos, Z.pow_pos_nonneg; [reflexivity | exact H2].
Qed.

Lemma pow2_add j c : 0 <= c -> (pow2 (j + c) == pow2 j * inject_Z (2 ^ c))%Q.
Proof.
  intros Hc.
  assert (H1 : 0 <= Z.abs j) by lia.
  assert (H2 : 0 <= j + Z.abs j) by lia.
  assert (H3 : 0 <= j + c + Z.abs j) by lia.
  assert (H4 : j + c + Z.abs j = (j + Z.abs j) + c) by lia.
  rewrite (pow2_shift (j + c) (Z.abs j) H1 H3), (pow2_shift j (Z.abs j) H1 H2).
  rewrite H4, (Z.pow_add_r 2 _ _ H2 Hc), inject_Z_mult. field.
  apply inject_Z_nonzero, Z.pow_pos_nonneg; [reflexivity | exact H1].
Qed.

Lemma pow2_mono a b : a <= b -> (pow2 a <= pow2 b)%Q.
Proof.
  intros Hab.
  assert (Hc : 0 <= b - a) by lia.
  assert (Hb : b = a + (b - a)) by lia.
  assert (Hp : 0 < 2 ^ (b - a)) by (apply Z.pow_pos_nonneg; [reflexivity | exact Hc]).
  rewrite Hb, (pow2_add a (b - a) Hc).
  rewrite <- (Qmult_1_r (pow2 a)) at 1.
  apply Qmult_le_l; [apply pow2_pos |].
  change 1%Q with (inject_Z 1). rewrite <- Zle_Qle.
  generalize dependent (2 ^ (b - a)). intros. lia.
Qed.

Lemma frac_le (a b c d : Q) :
  (0 < b -> 0 < d -> a * d <= c * b -> a / b <= c / d)%Q.
Proof.
  intros Hb Hd Hle. apply Qle_shift_div_l; [exact Hd |].
  setoid_replace (a / b * d)%Q with ((a * d) / b)%Q using relation Qeq
    by (field; intros Hz; rewrite Hz in Hb; now apply Qlt_irrefl in Hb).
  now apply Qle_shift_div_r.
Qed.

Lemma frac_lt (a b c d : Q) :
  (0 < b -> 0 < d -> a * d < c * b -> a / b < c / d)%Q.
Proof.
  intros Hb Hd Hle. apply Qlt_shift_div_l; [exact Hd |].
  setoid_replace (a / b * d)%Q with ((a * d) / b)%Q using relation Qeq
    by (field; intros Hz; rewrite Hz in Hb; now apply Qlt_irrefl in Hb).
  now apply Qlt_shift_div_r.
Qed.

Lemma div_rne_half n d : 0 < d -> 2 * Z.abs (div_rne n d * d - n) <= d.
Proof.
  intros Hd. unfold div_rne.
  pose proof (Z.div_mod n d ltac:(lia)) as Hnd.
  pose proof (Z.mod_pos_bound n d Hd) as Hr.
  destruct (Z.ltb_spec (2 * (n mod d)) d); [lia |].
  destruct (Z.ltb_spec d (2 * (n mod d))); [lia |].
  destruct (Z.even (n / d)); lia.
Qed.

Lemma frac_le_inv (a b c d : Q) :
  (0 < b -> 0 < d -> a / b <= c / d -> a * d <= c * b)%Q.
Proof.
  intros Hb Hd Hle.
  assert (Hbd : (0 <= b * d)%Q) by (apply Qmult_le_0_compat; now apply Qlt_le_weak).
  pose proof (Qmult_le_compat_r _ _ _ Hle Hbd) as Hm.
  setoid_replace (a / b * (b * d))%Q with (a * d)%Q using relation Qeq in Hm
    by (field; intros Hz; rewrite Hz in Hb; now apply Qlt_irrefl in Hb).
  setoid_replace (c / d * (b * d))%Q with (c * b)%Q using relation Qeq in Hm
    by (field; intros Hz; rewrite Hz in Hd; now apply Qlt_irrefl in Hd).
  exact Hm.
Qed.

Lemma frac_lt_inv (a b c d : Q) :
  (0 < b -> 0 < d -> a / b < c / d -> a * d < c * b)%Q.
Proof.
  intros Hb Hd Hlt.
  assert (Hbd : (0 < b * d)%Q).
  { rewrite <- (Qmult_0_l d). apply Qmult_lt_compat_r; assumption. }
  pose proof (Qmult_lt_compat_r _ _ _ Hbd Hlt) as Hm.
  setoid_replace (a / b * (b * d))%Q with (a * d)%Q using relation Qeq in Hm
    by (field; intros Hz; rewrite Hz in Hb; now apply Qlt_irrefl in Hb).
  setoid_replace (c / d * (b * d))%Q with (c * b)%Q using relation Qeq in Hm
    by (field; intros Hz; rewrite Hz in Hd; now apply Qlt_irrefl in Hd).
  exact Hm.
Qed.

(** The integer side of the rounding: the exponent found puts the scaled
    quotient in [2^52, 2^53), and the mantissa is within one half of it. *)
Lemma round_pos_integers n d P t E :
  0 < n -> 0 < d -> 0 < P -> 0 < E ->
  t = (n * P) / d ->
  2 ^ 52 * E <= t < 2 ^ 53 * E ->
  let D := d * E in
  let m := div_rne (n * P) D in
  2 ^ 52 * D <= n * P < 2 ^ 53 * D /\
  2 * Z.abs (m * D - n * P) <= D.
Proof.
  intros Hn Hd HP HE Ht [Hlo Hhi] D m.
  assert (HD : 0 < D) by (unfold D; nia).
  split; [| apply div_rne_half; exact HD].
  pose proof (Z.mul_div_le (n * P) d Hd) as H1.
  pose proof (Z.mul_succ_div_gt (n * P) d Hd) as H2.
  rewrite <- Ht in H1, H2. unfold D.
  generalize dependent (n * P). intros N. intros.
  change (2 ^ 52) with 4503599627370496 in *.
  change (2 ^ 53) with 9007199254740992 in *.
  nia.
Qed.

Lemma SHIFT_large : 1075 <= SHIFT.
Proof. unfold SHIFT. lia. Qed.

Lemma round_pos_nearest n d :
  0 < n -> 0 < d ->
  (pow2 (-1022) <= inject_Z n / inject_Z d)%Q ->
  (inject_Z n / inject_Z d < pow2 1023)%Q ->
  exists a, round_pos n d = Num a /\ nearest_binary64 (inject_Z n / inject_Z d) a.
Proof.
  intros Hn Hd Hlo Hhi.
  pose proof SHIFT_large as HS.
  assert (HS0 : 0 <= SHIFT) by lia.
  set (P := 2 ^ SHIFT).
  assert (HP : 0 < P) by (apply Z.pow_pos_nonneg; [reflexivity | exact HS0]).
  pose proof (inject_Z_pos _ HP) as HPq.
  pose proof (inject_Z_pos _ Hd) as Hdq.
  pose proof (inject_Z_pos _ Hn) as Hnq.
  set (t := (n * P) / d).
  (* the bounds on the quotient, as integers *)
  assert (Hlo1 : 0 <= -1022 + SHIFT) by lia.
  assert (Hhi1 : 0 <= 1023 + SHIFT) by lia.
  rewrite (pow2_shift (-1022) SHIFT HS0 Hlo1) in Hlo.
  rewrite (pow2_shift 1023 SHIFT HS0 Hhi1) in Hhi.
  fold P in Hlo, Hhi.
  apply frac_le_inv in Hlo; [| exact HPq | exact Hdq].
  apply frac_lt_inv in Hhi; [| exact Hdq | exact HPq].
  rewrite <- !inject_Z_mult, <- Zle_Qle in Hlo.
  rewrite <- !inject_Z_mult, <- Zlt_Qlt in Hhi.
  assert (Htlo : 2 ^ (-1022 + SHIFT) <= t).
  { apply Z.div_le_lower_bound; [exact Hd |]. rewrite (Z.mul_comm d). exact Hlo. }
  assert (Hthi : t < 2 ^ (1023 + SHIFT)).
  { apply Z.div_lt_upper_bound; [exact Hd |]. rewrite (Z.mul_comm d). exact Hhi. }
  assert (Ht0 : 0 < t).
  { eapply Z.lt_le_trans; [| exact Htlo].
    apply Z.pow_pos_nonneg; [reflexivity | exact Hlo1]. }
  apply (Z.log2_le_pow2 _ _ Ht0) in Htlo.
  apply (Z.log2_lt_pow2 _ _ Ht0) in Hthi.
  pose proof (Z.log2_spec t Ht0) as Hspec.
  set (k := Z.log2 t - SHIFT).
  set (e := k - 52).
  assert (Hk : -1022 <= k <= 1022) by (unfold k; lia).
  assert (HeS : 0 <= e + SHIFT) by (unfold e; lia).
  set (E := 2 ^ (e + SHIFT)).
  assert (HE : 0 < E) by (apply Z.pow_pos_nonneg; [reflexivity | exact HeS]).
  pose proof (inject_Z_pos _ HE) as HEq.
  assert (Hbin : 2 ^ 52 * E <= t < 2 ^ 53 * E).
  { unfold E.
    rewrite <- !Z.pow_add_r by (first [exact HeS | discriminate]).
    replace (52 + (e + SHIFT)) with (Z.log2 t) by (unfold e, k; lia).
    replace (53 + (e + SHIFT)) with (Z.succ (Z.log2 t)) by (unfold e, k; lia).
    exact Hspec. }
  destruct (round_pos_integers n d P t E Hn Hd HP HE eq_refl Hbin) as [[HNlo HNhi] Hhalf].
  set (D := d * E) in *.
  set (m := div_rne (n * P) D) in *.
  set (x := (inject_Z n / inject_Z d)%Q).
  set (a := (inject_Z m * pow2 e)%Q).
  (* the rational side *)
  assert (Hpe : (pow2 e == inject_Z E / inject_Z P)%Q)
    by (apply pow2_shift; assumption).
  assert (Hx0 : (0 < x)%Q).
  { unfold x. apply Qlt_shift_div_l; [exact Hdq |]. now rewrite Qmult_0_l. }
  assert (Hlow : (pow2 (e + 52) <= x)%Q).
  { rewrite (pow2_add e 52) by discriminate. rewrite Hpe.
    setoid_replace (inject_Z E / inject_Z P * inject_Z (2 ^ 52))%Q
      with (inject_Z (2 ^ 52 * E) / inject_Z P)%Q using relation Qeq
      by (rewrite inject_Z_mult; field; now apply inject_Z_nonzero).
    apply frac_le; [exact HPq | exact Hdq |].
    rewrite <- !inject_Z_mult, <- Zle_Qle.
    clear -HNlo. subst D. clearbody E P. change (2 ^ 52) with 4503599627370496 in *. lia. }
  assert (Hupp : (x < pow2 (e + 53))%Q).
  { rewrite (pow2_add e 53) by discriminate. rewrite Hpe.
    setoid_replace (inject_Z E / inject_Z P * inject_Z (2 ^ 53))%Q
      with (inject_Z (2 ^ 53 * E) / inject_Z P)%Q using relation Qeq
      by (rewrite inject_Z_mult; field; now apply inject_Z_nonzero).
    apply frac_lt; [exact Hdq | exact HPq |].
    rewrite <- !inject_Z_mult, <- Zlt_Qlt.
    clear -HNhi. subst D. clearbody E P. change (2 ^ 53) with 9007199254740992 in *. lia. }
  assert (Hhalfq : (pow2 (e - 1) == inject_Z E / (inject_Z 2 * inject_Z P))%Q).
  { assert (He1 : (pow2 e == pow2 (e - 1) * inject_Z (2 ^ 1))%Q).
    { rewrite <- (pow2_add (e - 1) 1) by discriminate.
      replace (e - 1 + 1) with e by (clear; lia). reflexivity. }
    rewrite Hpe in He1. change (inject_Z (2 ^ 1)) with (inject_Z 2) in He1.
    setoid_replace (pow2 (e - 1)) with (pow2 (e - 1) * inject_Z 2 / inject_Z 2)%Q
      using relation Qeq by (field; discriminate).
    rewrite <- He1. field. now apply inject_Z_nonzero. }
  assert (Hdiff : (a - x == inject_Z (m * D - n * P) / (inject_Z P * inject_Z d))%Q).
  { unfold a, x, D. rewrite Hpe.
    unfold Zminus. rewrite inject_Z_plus, inject_Z_opp, !inject_Z_mult.
    field. split; now apply inject_Z_nonzero. }
  assert (HPd : (0 < inject_Z P * inject_Z d)%Q).
  { rewrite <- (Qmult_0_l (inject_Z d)). now apply Qmult_lt_compat_r. }
  assert (H2P : (0 < inject_Z 2 * inject_Z P)%Q).
  { rewrite <- (Qmult_0_l (inject_Z P)). now apply Qmult_lt_compat_r. }
  assert (Herr : (Qabs (a - x) <= pow2 (e - 1))%Q).
  { rewrite Hdiff, Hhalfq. apply Qabs_Qle_condition. split.
    - setoid_replace (- (inject_Z E / (inject_Z 2 * inject_Z P)))%Q
        with (inject_Z (- E) / (inject_Z 2 * inject_Z P))%Q using relation Qeq
        by (rewrite inject_Z_opp; field; now apply inject_Z_nonzero).
      apply frac_le; [exact H2P | exact HPd |].
      rewrite <- !inject_Z_mult, <- Zle_Qle.
      clear -Hhalf HP. clearbody m P E. subst D.
      assert (Hu : - (d * E) <= 2 * (m * (d * E) - n * P) <= d * E) by lia.
      try replace (- E * (P * d)) with (- (d * E) * P) by ring.
      try replace (E * (P * d)) with ((d * E) * P) by ring.
      generalize dependent (m * (d * E) - n * P). intros u _ Hu.
      generalize dependent (d * E). intros v Hu. nia.
    - apply frac_le; [exact HPd | exact H2P |].
      rewrite <- !inject_Z_mult, <- Zle_Qle.
      clear -Hhalf HP. clearbody m P E. subst D.
      assert (Hu : - (d * E) <= 2 * (m * (d * E) - n * P) <= d * E) by lia.
      try replace (- E * (P * d)) with (- (d * E) * P) by ring.
      try replace (E * (P * d)) with ((d * E) * P) by ring.
      generalize dependent (m * (d * E) - n * P). intros u _ Hu.
      generalize dependent (d * E). intros v Hu. nia. }
  assert (Hval : round_pos n d =
                 if Qle_bool (pow2 1024) a then PosInf else Num (Qred a)).
  { unfold round_pos. cbv zeta. change ((n * 2 ^ SHIFT) / d) with t.
    destruct (Z.eqb_spec t 0) as [Hz | _]; [rewrite Hz in Ht0; discriminate Ht0 |].
    change (Z.log2 t - SHIFT) with k.
    rewrite (Z.max_l (k - 52) (-1074)) by (clear -Hk; lia).
    reflexivity. }
  assert (Hnover : Qle_bool (pow2 1024) a = false).
  { destruct (Qle_bool (pow2 1024) a) eqn:Hov; [| reflexivity]. exfalso.
    apply Qle_bool_iff in Hov.
    pose proof (Qle_trans _ _ _ (Qle_Qabs (a - x)) Herr) as Hax.
    assert (H1 : (pow2 (e + 53) <= pow2 1023)%Q) by (apply pow2_mono; clear -Hk; lia).
    assert (H2 : (pow2 (e - 1) <= pow2 969)%Q) by (apply pow2_mono; clear -Hk; lia).
    assert (H3 : (pow2 1023 + pow2 969 < pow2 1024)%Q) by (vm_compute; reflexivity).
    clear -Hov Hax H1 H2 H3 Hupp.
    generalize dependent (pow2 1024). generalize dependent (pow2 1023).
    generalize dependent (pow2 969). generalize dependent (pow2 (e + 53)).
    generalize dependent (pow2 (e - 1)). intros. lra. }
  exists (Qred a). rewrite Hval, Hnover. split; [reflexivity |].
  exists e, m. rewrite (Qabs_pos x) by (now apply Qlt_le_weak). rewrite (Qred_correct a).
  split; [clear -Hk; lia |]. repeat split; try assumption.
Qed.

Lemma nearest_binary64_compat x x' a a' :
  (x == x')%Q -> (a == a')%Q -> nearest_binary64 x a -> nearest_binary64 x' a'.
Proof.
  intros Hx Ha (e & m & He & Hlo & Hhi & Hm & Herr).
  exists e, m. rewrite <- Hx, <- Ha. now repeat split.
Qed.

Lemma to_double_nearest x :
  (pow2 (-1022) <= x)%Q -> (x < pow2 1023)%Q ->
  exists a, to_double x = Num a /\ nearest_binary64 x a.
Proof.
  intros Hlo Hhi.
  assert (Hx : (0 < x)%Q) by (eapply Qlt_le_trans; [apply (pow2_pos (-1022)) | exact Hlo]).
  destruct x as [n d]. unfold to_double. cbn [Qnum Qden].
  destruct n as [|n|n]; [discriminate Hx | | discriminate Hx].
  pose proof (Qmake_Qdiv (Z.pos n) d) as Hnd. rewrite Hnd in Hlo, Hhi.
  destruct (round_pos_nearest (Z.pos n) (Z.pos d) eq_refl eq_refl Hlo Hhi)
    as (a & Ha & Hnear).
  exists a. split; [exact Ha |].
  apply (nearest_binary64_compat _ _ a a (Qeq_sym _ _ Hnd) (Qeq_refl a) Hnear).
Qed.


Lemma div1000_zero q : (q == 0)%Q -> div1000 (Num q) = Num 0.
Proof.
  destruct q as [n d]. unfold Qeq. cbn. intros Hn.
  assert (n = 0) by lia. subst n. reflexivity.
Qed.

Lemma nearest_error x a j :
  nearest_binary64 x a -> (Qabs x < pow2 j)%Q -> (Qabs (a - x) <= pow2 (j - 54))%Q.
Proof.
  intros (e & m & _ & Hlo & _ & _ & Herr) Hj.
  eapply Qle_trans; [exact Herr |]. apply pow2_mono.
  destruct (Z_lt_le_dec (e + 52) j) as [Hlt | Hge]; [lia |].
  exfalso. apply (pow2_mono j (e + 52)) in Hge.
  apply (Qlt_irrefl (Qabs x)).
  eapply Qlt_le_trans; [exact Hj |]. eapply Qle_trans; [exact Hge | exact Hlo].
Qed.

Lemma div1000_ms q z :
  (q == inject_Z z)%Q -> 0 <= z <= MAX_DATE ->
  exists a, div1000 (Num q) = Num a /\
            binary64_of (inject_Z z / inject_Z 1000) a /\
            (Qabs (a - inject_Z z / inject_Z 1000) <= pow2 (-11))%Q.
Proof.
  intros Hq [Hz0 Hzmax].
  destruct (Z.eq_dec z 0) as [-> | Hnz].
  - exists 0%Q. rewrite (div1000_zero q Hq). split; [reflexivity |].
    split; [left; split; reflexivity | vm_compute; discriminate].
  - set (x := (inject_Z z / inject_Z 1000)%Q).
    assert (Hx : (q / inject_Z 1000 == x)%Q) by (unfold x; now rewrite Hq).
    assert (H1000 : (0 < inject_Z 1000)%Q) by reflexivity.
    assert (Hxlo : (pow2 (-10) <= x)%Q).
    { change (pow2 (-10)) with (inject_Z 1 / inject_Z 1024)%Q. unfold x.
      apply frac_le; [reflexivity | exact H1000 |].
      rewrite <- !inject_Z_mult, <- Zle_Qle. lia. }
    assert (Hxhi : (x < pow2 43)%Q).
    { change (pow2 43) with (inject_Z (2 ^ 43) / inject_Z 1)%Q. unfold x.
      apply frac_lt; [exact H1000 | reflexivity |].
      rewrite <- !inject_Z_mult, <- Zlt_Qlt. unfold MAX_DATE in Hzmax.
      change (2 ^ 43) with 8796093022208. lia. }
    destruct (to_double_nearest (q / inject_Z 1000)) as (a & Ha & Hnear).
    + rewrite Hx. eapply Qle_trans; [apply (pow2_mono (-1022) (-10)); lia | exact Hxlo].
    + rewrite Hx. eapply Qlt_le_trans; [exact Hxhi | apply pow2_mono; lia].
    + exists a. split; [exact Ha |].
      assert (Hnear' : nearest_binary64 x a)
        by (apply (nearest_binary64_compat _ _ a a Hx (Qeq_refl a) Hnear)).
      split; [right; exact Hnear' |].
      apply (nearest_error x a 43 Hnear').
      rewrite Qabs_pos; [exact Hxhi |].
      eapply Qle_trans; [apply Qlt_le_weak, (pow2_pos (-10)) | exact Hxlo].
Qed.

Lemma ms_roundtrip z a :
  (Qabs (a - inject_Z z / inject_Z 1000) <= pow2 (-11))%Q ->
  ms_reading (Qfloor (a * inject_Z 1000000000)) = z.
Proof.
  intros Herr. apply Qabs_Qle_condition in Herr as [Hlo Hhi].
  change (pow2 (-11)) with (1 # 2048)%Q in *.
  set (y := (a * inject_Z 1000000000)%Q).
  pose proof (Qfloor_le y) as Hf1. pose proof (Qlt_floor y) as Hf2.
  set (ns := Qfloor y) in *.
  assert (Hz : (inject_Z z / inject_Z 1000 * inject_Z 1000000000
                 == inject_Z (z * 1000000))%Q).
  { rewrite inject_Z_mult. field. }
  assert (Hy1 : (inject_Z (z * 1000000) - (488282 # 1) < y)%Q).
  { rewrite <- Hz. unfold y. change (inject_Z 1000000000) with (1000000000 # 1)%Q.
    generalize dependent (inject_Z z / inject_Z 1000)%Q. intros. lra. }
  assert (Hy2 : (y < inject_Z (z * 1000000) + (488282 # 1))%Q).
  { rewrite <- Hz. unfold y. change (inject_Z 1000000000) with (1000000000 # 1)%Q.
    generalize dependent (inject_Z z / inject_Z 1000)%Q. intros. lra. }
  assert (Hn1 : z * 1000000 - 488283 < ns).
  { rewrite Zlt_Qlt. rewrite inject_Z_plus in Hf2.
    unfold Zminus. rewrite inject_Z_plus, inject_Z_opp.
    change (inject_Z 488283) with (488283 # 1)%Q.
    change (inject_Z 1) with (1 # 1)%Q in Hf2.
    clearbody ns y. clear -Hf2 Hy1.
    generalize dependent (inject_Z (z * 1000000)). generalize dependent (inject_Z ns).
    intros. lra. }
  assert (Hn2 : ns < z * 1000000 + 488282).
  { rewrite Zlt_Qlt, inject_Z_plus.
    change (inject_Z 488282) with (488282 # 1)%Q.
    eapply Qle_lt_trans; [exact Hf1 | exact Hy2]. }
  unfold ms_reading. clearbody ns. clear -Hn1 Hn2. symmetry.
  apply (Z.div_unique_pos _ _ z (ns + 500000 - z * 1000000)); lia.
Qed.

(** ** Time validation *)

Lemma assertTime_num key q :
  assertTime key (JNum (Num q)) =
    if negb (Qeq_bool (inject_Z (Qfloor q)) q) then
      Err (Error_ (key +:+ " must be an integer"))
    else if Qltb q 0 then Err (Error_ (key +:+ " must be a positive integer"))
    else if Qltb (inject_Z (2 ^ 48 - 1)) q then Err (Error_ "NaN")
    else Ok tt.
Proof. reflexivity. Qed.

(** Validation accepts an absent field and every integer of 0 .. 2^48-1. *)
Lemma assertTime_accepts key v :
  v = JUndefined \/ time_in_range v -> assertTime key v = Ok tt.
Proof.
  intros [-> | (q & z & -> & Hq & Hz)]; [reflexivity |].
  rewrite assertTime_num, (floor_int q z Hq). cbn [negb].
  change 0%Q with (inject_Z 0).
  rewrite (Qltb_int_l q z 0 Hq), (Qltb_int_r q z _ Hq).
  destruct (Z.ltb_spec z 0); [lia |].
  destruct (Z.ltb_spec (2 ^ 48 - 1) z); [lia | reflexivity].
Qed.

(** It accepts nothing else. *)
Lemma assertTime_ok_inv key v :
  assertTime key v = Ok tt -> v = JUndefined \/ time_in_range v.
Proof.
  destruct v as [| | |n| | | | | |]; try discriminate; [now left |].
  destruct n as [q| | |]; try discriminate.
  rewrite assertTime_num.
  destruct (Qeq_bool (inject_Z (Qfloor q)) q) eqn:Hfl; [|discriminate].
  cbn [negb]. pose proof (floor_int_inv q Hfl) as Hq.
  change 0%Q with (inject_Z 0).
  rewrite (Qltb_int_l q _ 0 Hq), (Qltb_int_r q _ _ Hq).
  destruct (Z.ltb_spec (Qfloor q) 0); [discriminate |].
  destruct (Z.ltb_spec (2 ^ 48 - 1) (Qfloor q)); [discriminate |].
  intros _. right. exists q, (Qfloor q). repeat split; [exact Hq | lia | lia].
Qed.

(** A value that is not a number, a fraction and a negative number are
    refused with a message that starts with the name of the field. *)
Lemma assertTime_rejects_named key v :
  v <> JUndefined ->
  (typeof v <> "number" \/
   (exists n, v = JNum n /\ js_strict_neq (Math_floor n) n = true) \/
   (exists n, v = JNum n /\ js_lt n (Num 0) = true)) ->
  exists e, assertTime key v = Err e /\ identifies key e.
Proof.
  intros Hv [Hty | [(n & -> & Hn) | (n & -> & Hn)]].
  - destruct v; cbn in Hty; try congruence;
      (eexists; split; [reflexivity | eexists; reflexivity]).
  - cbn [assertTime]. rewrite Hn.
    eexists; split; [reflexivity | eexists; reflexivity].
  - cbn [assertTime]. rewrite Hn.
    destruct (js_strict_neq (Math_floor n) n);
      (eexists; split; [reflexivity | eexists; reflexivity]).
Qed.

(** An integer above 2^48-1 is refused, with the message ["NaN"]. *)
Lemma assertTime_too_large key q z :
  (q == inject_Z z)%Q -> 2 ^ 48 - 1 < z ->
  assertTime key (JNum (Num q)) = Err (Error_ "NaN").
Proof.
  intros Hq Hz. rewrite assertTime_num, (floor_int q z Hq). cbn [negb].
  change 0%Q with (inject_Z 0).
  rewrite (Qltb_int_l q z 0 Hq), (Qltb_int_r q z _ Hq).
  destruct (Z.ltb_spec z 0); [lia |].
  destruct (Z.ltb_spec (2 ^ 48 - 1) z); [reflexivity | lia].
Qed.

Lemma NaN_names_no_field :
  ~ identifies "btime" (Error_ "NaN") /\
  ~ identifies "mtime" (Error_ "NaN") /\
  ~ identifies "atime" (Error_ "NaN").
Proof. repeat split; intros [rest Hrest]; discriminate Hrest. Qed.

(** ** Path validation *)

Lemma indexOf_range x l : -1 <= indexOf x l < Z.of_nat (length l).
Proof.
  induction l as [|y l IH]; cbn [indexOf length]; [lia |].
  destruct (y =? x); [lia |].
  destruct (Z.eqb_spec (indexOf x l) (-1)); lia.
Qed.

Lemma indexOf_absent x l : indexOf x l = -1 <-> ~ In x l.
Proof.
  induction l as [|y l IH]; cbn [indexOf In]; [tauto |].
  pose proof (indexOf_range x l) as Hr.
  destruct (Z.eqb_spec y x) as [-> | Hne].
  - split; [discriminate | tauto].
  - destruct (Z.eqb_spec (indexOf x l) (-1)) as [Hi | Hi].
    + split; [intros _ [Hy | Hin]; tauto | reflexivity].
    + split; [lia | intros Hn; exfalso; apply Hi, IH; tauto].
Qed.

Lemma assertPath_str key s :
  assertPath key (JStr s) =
    match s with
    | [] => Err (Error_ (key +:+ " must not be empty"))
    | _ :: _ =>
        if negb (indexOf 0 s =? -1) then
          Err (Error_ (key +:+ " must be a string without null bytes"))
        else Ok s
    end.
Proof. destruct s; reflexivity. Qed.

(** Every value is either accepted, and then it is a good path, or refused
    with an error of the kind [InvalidPath] under the given label. *)
Lemma assertPath_cases key v :
  (exists s, v = JStr s /\ ~ bad_path v /\ assertPath key v = Ok s) \/
  (exists e, bad_path v /\ InvalidPath key e /\ assertPath key v = Err e).
Proof.
  unfold InvalidPath.
  destruct v as [| | | | |s| | | |];
    try (right; eexists; split; [exact I | split; [left; reflexivity | reflexivity]]).
  rewrite assertPath_str. destruct s as [|u s].
  - right. eexists. split; [left; reflexivity | split; [right; left|]; reflexivity].
  - destruct (Z.eqb_spec (indexOf 0 (u :: s)) (-1)) as [Hi | Hi]; cbn [negb].
    + left. exists (u :: s). split; [reflexivity | split; [| reflexivity]].
      intros [Hnil | Hin]; [discriminate | now apply indexOf_absent in Hi].
    + right. eexists. split; [| split; [right; right|]; reflexivity].
      right. destruct (in_dec Z.eq_dec 0 (u :: s)) as [Hin | Hn]; [exact Hin |].
      now apply indexOf_absent in Hn.
Qed.

Lemma assertPath_ok_inv key v s :
  assertPath key v = Ok s -> v = JStr s /\ ~ bad_path v.
Proof.
  destruct (assertPath_cases key v) as [(s' & -> & Hg & Hs) | (e & _ & _ & He)];
    [| congruence].
  rewrite Hs. intros [= <-]. now split.
Qed.

Lemma assertPath_ok key s : ~ bad_path (JStr s) -> assertPath key (JStr s) = Ok s.
Proof.
  intros Hg.
  destruct (assertPath_cases key (JStr s)) as [(s' & [= <-] & _ & Hs) | (e & Hb & _)];
    [exact Hs | contradiction].
Qed.

(** The loop stops at the first refused element and labels it by its index. *)
Lemma assertPaths_first_bad elems : forall i0,
  Exists bad_path elems ->
  exists i v e,
    elems !! i = Some v /\ bad_path v /\
    (forall j v', (j < i)%nat -> elems !! j = Some v' -> ~ bad_path v') /\
    InvalidPath (paths_key (i0 + i)) e /\
    assertPaths i0 elems = Err e.
Proof.
  induction elems as [|v elems IH]; intros i0 Hex; [inversion Hex |].
  cbn [assertPaths].
  destruct (assertPath_cases (paths_key i0) v) as [(s & -> & Hg & Hs) | (e & Hb & Hk & He)].
  - assert (Hrest : Exists bad_path elems) by (inversion Hex; [contradiction | assumption]).
    destruct (IH (S i0) Hrest) as (i & v & e & Hi & Hb & Hlt & Hk & He).
    exists (S i), v, e. rewrite Hs. cbn [rbind]. rewrite He.
    replace (i0 + S i)%nat with (S i0 + i)%nat by lia.
    repeat split; try assumption.
    intros [|j] v' Hj Hv'; cbn in Hv'.
    + injection Hv' as <-. exact Hg.
    + apply (Hlt j v'); [lia | exact Hv'].
  - exists 0%nat, v, e. rewrite He, Nat.add_0_r.
    repeat split; try assumption. intros j v' Hj. lia.
Qed.

(** The targets are the elements, in the order of the array. *)
Lemma assertPaths_ok elems : forall i0 targets,
  assertPaths i0 elems = Ok targets -> elems = map JStr targets.
Proof.
  induction elems as [|v elems IH]; intros i0 targets; cbn [assertPaths].
  - intros [= <-]. reflexivity.
  - destruct (assertPath (paths_key i0) v) as [s|e] eqn:Hs; [|discriminate].
    cbn [rbind]. destruct (assertPaths (S i0) elems) as [ps|e] eqn:Hps; [|discriminate].
    intros [= <-]. apply assertPath_ok_inv in Hs as [-> _].
    cbn [map]. f_equal. apply (IH (S i0)). exact Hps.
Qed.

Lemma normalizePaths_str p :
  ~ bad_path (JStr p) -> normalizePaths (JStr p) = Ok [p].
Proof. intros Hg. cbn [normalizePaths]. now rewrite (assertPath_ok _ _ Hg). Qed.

(** A refused value gets the message of its defect, under the given label. *)
Lemma assertPath_bad_msg key v :
  bad_path v -> assertPath key v = Err (Error_ (key +:+ path_defect v)).
Proof.
  destruct v as [| | | | |s| | | |]; try reflexivity.
  rewrite assertPath_str. destruct s as [|u s]; [reflexivity |].
  intros [Hnil | Hin]; [discriminate Hnil |].
  destruct (Z.eqb_spec (indexOf 0 (u :: s)) (-1)) as [Hi | Hi]; [| reflexivity].
  now apply indexOf_absent in Hi.
Qed.

(** The loop refuses the array at its first bad element, under the label of
    the index of that element. *)
Lemma assertPaths_at elems : forall i0 i v,
  elems !! i = Some v -> bad_path v ->
  (forall j v', (j < i)%nat -> elems !! j = Some v' -> ~ bad_path v') ->
  assertPaths i0 elems = Err (Error_ (paths_key (i0 + i) +:+ path_defect v)).
Proof.
  induction elems as [|v0 elems IH]; intros i0 i v Hi Hbad Hbefore;
    [discriminate Hi |].
  cbn [assertPaths]. destruct i as [|i].
  - injection Hi as ->. rewrite Nat.add_0_r, (assertPath_bad_msg _ _ Hbad).
    reflexivity.
  - destruct (assertPath_cases (paths_key i0) v0) as [(s & -> & _ & Hs) | (e & Hb0 & _)].
    + rewrite Hs. cbn [rbind].
      rewrite (IH (S i0) i v Hi Hbad).
      * replace (i0 + S i)%nat with (S i0 + i)%nat by lia. reflexivity.
      * intros j v' Hj Hv'. apply (Hbefore (S j) v'); [lia | exact Hv'].
    + exfalso. apply (Hbefore 0%nat v0); [lia | reflexivity | exact Hb0].
Qed.

Lemma append_bracket_inj s1 : forall s2, s1 +:+ "]" = s2 +:+ "]" -> s1 = s2.
Proof.
  induction s1 as [|a s1 IH]; intros [|b s2] Heq; cbn in Heq.
  - reflexivity.
  - injection Heq as _ Heq. destruct s2; discriminate Heq.
  - injection Heq as _ Heq. destruct s1; discriminate Heq.
  - injection Heq as -> Heq. f_equal. now apply IH.
Qed.

(** ** Options *)

Lemma getFullOptions_not_object options :
  typeof options <> "object" ->
  getFullOptions options = Err (Error_ "options must be an object").
Proof.
  intros Hty. unfold getFullOptions.
  destruct (String.eqb_spec (typeof options) "object"); [contradiction | reflexivity].
Qed.

(** The times of a plan are the requested ones, and zero for the fields that
    are absent or zero. *)
Lemma getFullOptions_ok_inv options times :
  getFullOptions options = Ok times ->
  exists b m a,
    get_prop options "btime" = Ok b /\ get_prop options "mtime" = Ok m /\
    get_prop options "atime" = Ok a /\
    (b = JUndefined \/ time_in_range b) /\
    (m = JUndefined \/ time_in_range m) /\
    (a = JUndefined \/ time_in_range a) /\
    times = {| btime := or_zero b; mtime := or_zero m; atime := or_zero a |}.
Proof.
  unfold getFullOptions.
  destruct (negb (String.eqb (typeof options) "object")); [discriminate |].
  destruct (get_prop options "btime") as [b|] eqn:Hb; [|discriminate]. cbn [rbind].
  destruct (assertTime "btime" b) as [[]|] eqn:Hab; [|discriminate]. cbn [rbind].
  destruct (get_prop options "mtime") as [m|] eqn:Hm; [|discriminate]. cbn [rbind].
  destruct (assertTime "mtime" m) as [[]|] eqn:Ham; [|discriminate]. cbn [rbind].
  destruct (get_prop options "atime") as [a|] eqn:Ha; [|discriminate]. cbn [rbind].
  destruct (assertTime "atime" a) as [[]|] eqn:Haa; [|discriminate]. cbn [rbind].
  intros [= <-]. exists b, m, a.
  repeat split; eauto using assertTime_ok_inv.
Qed.

(** A number that is truthy is kept by [value || 0]. *)
Lemma or_zero_truthy v : num_truthy (or_zero v) = true -> v = JNum (or_zero v).
Proof.
  destruct v as [| | |n| | | | | |]; cbn; try discriminate.
  destruct (num_truthy n) eqn:Hn; [reflexivity | discriminate].
Qed.

(** The bits of the mask: a bit is set exactly when its field is non-zero. *)
Lemma getFlags_bits times :
  getFlags times =
    (if num_truthy (btime times) then 1 else 0) +
    (if num_truthy (mtime times) then 2 else 0) +
    (if num_truthy (atime times) then 4 else 0).
Proof.
  unfold getFlags.
  destruct (num_truthy (btime times)), (num_truthy (mtime times)),
    (num_truthy (atime times)); reflexivity.
Qed.

Lemma getFlags_mtime times :
  Z.land (getFlags times) 2 <> 0 <-> num_truthy (mtime times) = true.
Proof.
  rewrite getFlags_bits.
  destruct (num_truthy (btime times)), (num_truthy (mtime times)),
    (num_truthy (atime times)); split; intros Hx; vm_compute in *; congruence.
Qed.

Lemma getFlags_atime times :
  Z.land (getFlags times) 4 <> 0 <-> num_truthy (atime times) = true.
Proof.
  rewrite getFlags_bits.
  destruct (num_truthy (btime times)), (num_truthy (mtime times)),
    (num_truthy (atime times)); split; intros Hx; vm_compute in *; congruence.
Qed.

Lemma getFlags_zero times :
  getFlags times = 0 <->
  num_truthy (btime times) = false /\ num_truthy (mtime times) = false /\
  num_truthy (atime times) = false.
Proof.
  rewrite getFlags_bits.
  destruct (num_truthy (btime times)), (num_truthy (mtime times)),
    (num_truthy (atime times)); split; intros Hx; vm_compute in *;
    intuition congruence.
Qed.

(** With no field requested the mask is zero. *)
Lemma getFlags_nothing_requested options times b m a :
  getFullOptions options = Ok times ->
  get_prop options "btime" = Ok b -> get_prop options "mtime" = Ok m ->
  get_prop options "atime" = Ok a ->
  not_requested b -> not_requested m -> not_requested a ->
  getFlags times = 0.
Proof.
  intros Ht Hb Hm Ha Nb Nm Na.
  destruct (getFullOptions_ok_inv _ _ Ht) as (b' & m' & a' & Hb' & Hm' & Ha' & _ & _ & _ & ->).
  rewrite Hb in Hb'. rewrite Hm in Hm'. rewrite Ha in Ha'.
  injection Hb' as <-. injection Hm' as <-. injection Ha' as <-.
  assert (Hz : forall v, not_requested v -> num_truthy (or_zero v) = false).
  { intros v [-> | (q & -> & Hq)]; [reflexivity |]. cbn.
    apply Qeq_bool_iff in Hq. now rewrite Hq. }
  apply getFlags_zero. cbn [btime mtime atime]. auto.
Qed.

(** On an object the three fields are checked in the order btime, mtime,
    atime, and the first refusal is the error. *)
Lemma getFullOptions_obj props :
  getFullOptions (JObj props) =
    (try_ assertTime "btime" (assoc "btime" props);
     try_ assertTime "mtime" (assoc "mtime" props);
     try_ assertTime "atime" (assoc "atime" props);
     Ok {| btime := or_zero (assoc "btime" props);
           mtime := or_zero (assoc "mtime" props);
           atime := or_zero (assoc "atime" props) |}).
Proof. reflexivity. Qed.

(** ** Validation and the no-op short-circuit *)

Section Validation.
Context {W : Type} {H : Host W}.

Lemma set_paths_error paths options (s : State W) e :
  normalizePaths paths = Err e -> set paths options s = (Err e, s).
Proof. intros He. unfold set. now rewrite He. Qed.

Lemma set_options_error paths options targets (s : State W) e :
  normalizePaths paths = Ok targets -> getFullOptions options = Err e ->
  set paths options s = (Err e, s).
Proof. intros Hp He. unfold set. now rewrite Hp, He. Qed.

Lemma set_validated paths options targets times (s : State W) :
  normalizePaths paths = Ok targets -> getFullOptions options = Ok times ->
  set paths options s =
    if (getFlags times =? 0) || (Z.of_nat (length targets) =? 0) then (Ok tt, s)
    else set_targets targets times (getFlags times) s.
Proof. intros Hp Ht. unfold set. now rewrite Hp, Ht. Qed.

(** A paths argument that is neither a string nor an array is refused. *)
Lemma set_paths_invalid_argument paths options (s : State W) :
  typeof paths <> "string" -> (forall elems, paths <> JArr elems) ->
  set paths options s = (Err (Error_ "path must be a string or array"), s).
Proof.
  intros Hs Ha. apply set_paths_error.
  destruct paths as [| | | | | | | |elems|]; cbn in Hs;
    try reflexivity; [congruence | now destruct (Ha elems)].
Qed.

(** Options whose [typeof] is not ['object'] are refused. *)
Lemma set_options_not_object paths options targets (s : State W) :
  normalizePaths paths = Ok targets -> typeof options <> "object" ->
  set paths options s = (Err (Error_ "options must be an object"), s).
Proof.
  intros Hp Hty. apply (set_options_error _ _ targets); [exact Hp |].
  now apply getFullOptions_not_object.
Qed.

(** C4. When the update mask is zero or the target list is empty, [set]
    completes successfully and calls neither the filesystem nor the binding:
    the state, and with it the trace of calls, is the one it started from. *)
Theorem set_noop paths options targets times (s : State W) :
  normalizePaths paths = Ok targets ->
  getFullOptions options = Ok times ->
  getFlags times = 0 \/ targets = [] ->
  set paths options s = (Ok tt, s).
Proof.
  intros Hp Ht Hnoop. rewrite (set_validated _ _ _ _ _ Hp Ht).
  destruct Hnoop as [-> | ->]; [reflexivity |].
  cbn [length]. now rewrite orb_true_r.
Qed.

(** C6. A path that is not a string, is empty or holds a null character
    makes [set] fail, with the state untouched, with the message of that
    defect: under the label [path] for a single string, and for an array
    under the label [paths[i]], [i] being the index in decimal of the first
    such element. These errors are [InvalidPath] errors, and the labels of
    two different indices differ. *)
Theorem set_invalid_path paths options (s : State W) :
  (forall p, paths = JStr p -> bad_path paths ->
     set paths options s = (Err (Error_ ("path" +:+ path_defect paths)), s)) /\
  (forall elems i v,
     paths = JArr elems ->
     elems !! i = Some v -> bad_path v ->
     (forall j v', (j < i)%nat -> elems !! j = Some v' -> ~ bad_path v') ->
     set paths options s =
       (Err (Error_ (("paths[" +:+ pretty i +:+ "]") +:+ path_defect v)), s)) /\
  (forall elems, paths = JArr elems -> Exists bad_path elems ->
     exists i v,
       elems !! i = Some v /\ bad_path v /\
       (forall j v', (j < i)%nat -> elems !! j = Some v' -> ~ bad_path v')) /\
  (forall key v, bad_path v -> InvalidPath key (Error_ (key +:+ path_defect v))) /\
  (forall i j : nat,
     "paths[" +:+ pretty i +:+ "]" = "paths[" +:+ pretty j +:+ "]" -> i = j).
Proof.
  split; [| split; [| split; [| split]]].
  - intros p -> Hbad. apply set_paths_error. cbn [normalizePaths].
    now rewrite (assertPath_bad_msg "path" _ Hbad).
  - intros elems i v -> Hi Hbad Hbefore. apply set_paths_error.
    cbn [normalizePaths]. apply (assertPaths_at elems 0 i v Hi Hbad Hbefore).
  - intros elems -> Hex.
    destruct (assertPaths_first_bad elems 0 Hex) as (i & v & e & Hi & Hb & Hlt & _).
    now exists i, v.
  - intros key v Hbad. unfold InvalidPath.
    destruct v as [| | | | |[|u t]| | | |]; cbn [path_defect]; auto.
  - intros i j Heq. apply (inj (String.append "paths[")) in Heq.
    apply append_bracket_inj in Heq. now apply (inj pretty).
Qed.

(** C10. Validation comes before the no-op test: when the paths or, the
    paths being valid, the options are refused, [set] fails with that error,
    whatever the target list and the mask would have been. *)
Theorem set_validates_before_noop paths options (s : State W) e :
  normalizePaths paths = Err e \/
  (exists targets, normalizePaths paths = Ok targets /\
                   getFullOptions options = Err e) ->
  set paths options s = (Err e, s).
Proof.
  intros [He | (targets & Hp & He)].
  - now apply set_paths_error.
  - now apply (set_options_error _ _ targets).
Qed.

(** C7, the input on which the code departs from the claim. [typeof null]
    is ['object'], so [null] options pass the guard of [getFullOptions] and
    the read of [options.btime] throws the runtime's TypeError, not the
    error of the guard. *)
Theorem set_null_options (s : State W) :
  set (JStr (str "a")) JNull s = (Err (TypeError_property "btime" JNull), s) /\
  ~ InvalidArgument (TypeError_property "btime" JNull).
Proof.
  split; [reflexivity |]. intros [Hk | Hk]; discriminate Hk.
Qed.

(** C5, the input on which the code departs from the claim. A time above
    2^48-1 is refused, but the message is ["NaN"] for every field. *)
Theorem set_time_too_large (s : State W) :
  set (JStr (str "a")) (JObj [("mtime", ms (2 ^ 48))]) s = (Err (Error_ "NaN"), s) /\
  ~ identifies "mtime" (Error_ "NaN").
Proof.
  split; [reflexivity | apply NaN_names_no_field].
Qed.

End Validation.

Lemma set_noop_witness :
  set (H := linux) (JStr (str "a")) (JObj [("mtime", ms 0)])
      (start (one_file (str "a") T0))
  = (Ok tt, start (one_file (str "a") T0)) /\
  set (H := darwin) (JArr []) (JObj [("mtime", ms 5000)])
      (start (one_file (str "a") T0))
  = (Ok tt, start (one_file (str "a") T0)).
Proof.
  split.
  - apply (set_noop _ _ [str "a"] {| btime := Num 0; mtime := Num 0; atime := Num 0 |});
      [reflexivity | reflexivity | left; reflexivity].
  - apply (set_noop _ _ [] {| btime := Num 0; mtime := Num (inject_Z 5000);
                              atime := Num 0 |});
      [reflexivity | reflexivity | right; reflexivity].
Defined.

Lemma set_invalid_path_witness :
  set (H := linux) (JArr [JStr (str "a"); JStr []; JNull]) (JObj [])
      (start (one_file (str "a") T0))
  = (Err (Error_ "paths[1] must not be empty"), start (one_file (str "a") T0)).
Proof.
  apply (proj1 (proj2 (set_invalid_path (H := linux) _ (JObj []) _))
           [JStr (str "a"); JStr []; JNull] 1%nat (JStr []) eq_refl eq_refl).
  - left. reflexivity.
  - intros [|j] v' Hj Hv'; [| lia]. injection Hv' as <-.
    intros [Hnil | Hin]; [discriminate Hnil |].
    cbn in Hin. destruct Hin as [Hin | []]. discriminate Hin.
Defined.

Lemma set_validates_before_noop_witness :
  set (H := linux) (JArr []) (JObj [("mtime", ms (-1))]) (start (one_file (str "a") T0))
  = (Err (Error_ "mtime must be a positive integer"), start (one_file (str "a") T0)) /\
  set (H := linux) (JArr [JStr []]) (JObj []) (start (one_file (str "a") T0))
  = (Err (Error_ "paths[0] must not be empty"), start (one_file (str "a") T0)).
Proof.
  split.
  - apply set_validates_before_noop. right. exists []. split; reflexivity.
  - apply set_validates_before_noop. left. reflexivity.
Defined.

(** ** Platform dispatch on the fallback platforms *)

Section Fallback.
Context {W : Type} {H : Host W}.
Hypothesis fallback : native_capable = false.

Lemma utimes_trace target a m (s : State W) :
  trace (snd (utimes target a m s)) = trace s ++ [OpUtimes target a m].
Proof. unfold utimes. now destruct (fs_utimes target a m (world s)). Qed.

(** With the MTIME bit: one combined call, atime defaulting to mtime. *)
Lemma set_target_mtime target times flags (s : State W) :
  Z.land flags 2 <> 0 ->
  set_target target times flags s =
    utimes target
      (div1000 (if negb (Z.land flags 4 =? 0) then atime times else mtime times))
      (div1000 (mtime times)) s.
Proof.
  intros Hm. unfold set_target. unfold native_capable in fallback.
  rewrite fallback. now destruct (Z.eqb_spec (Z.land flags 2) 0).
Qed.

(** Without the MTIME bit: a stat, then one combined call that writes back
    the mtime just read. The ATIME bit is not looked at. *)
Lemma set_target_no_mtime target times flags (s : State W) :
  Z.land flags 2 = 0 ->
  set_target target times flags s =
    match fs_stat target (world s) with
    | Done stats =>
        utimes target (div1000 (atime times)) (div1000 (mtime_getTime stats))
          (called s [OpStat target])
    | Errno code => (Err (SystemError "stat" code target), called s [OpStat target])
    end.
Proof.
  intros Hm. unfold set_target. unfold native_capable in fallback.
  rewrite fallback, Hm. cbn. unfold then_, stat.
  now destruct (fs_stat target (world s)).
Qed.

Lemma set_targets_mtime_trace times flags a m :
  Z.land flags 2 <> 0 ->
  a = div1000 (if negb (Z.land flags 4 =? 0) then atime times else mtime times) ->
  m = div1000 (mtime times) ->
  forall targets (s : State W),
  exists n,
    (n <= length targets)%nat /\
    (targets <> [] -> (1 <= n)%nat) /\
    (fst (set_targets targets times flags s) = Ok tt -> n = length targets) /\
    trace (snd (set_targets targets times flags s)) =
      trace s ++ map (fun target => OpUtimes target a m) (take n targets).
Proof.
  intros Hm -> ->. induction targets as [|target rest IH]; intros s.
  - exists 0%nat. cbn. rewrite app_nil_r.
    split; [lia |]. split; [congruence |]. split; reflexivity.
  - cbn [set_targets]. unfold then_.
    rewrite (set_target_mtime _ _ _ _ Hm).
    pose proof (utimes_trace target
      (div1000 (if negb (Z.land flags 4 =? 0) then atime times else mtime times))
      (div1000 (mtime times)) s) as Htr.
    destruct (utimes target _ _ s) as [[[]|e] s1]; cbn [snd] in Htr.
    + destruct (IH s1) as (n & Hn & _ & Hok & Hrest).
      exists (S n). cbn [length firstn take map].
      rewrite Hrest, Htr, <- app_assoc.
      split; [lia |]. split; [lia |]. split; [| reflexivity].
      intros Hr. f_equal. now apply Hok.
    + exists 1%nat. cbn [length fst snd]. rewrite Htr. cbn. rewrite take_0.
      split; [lia |]. split; [lia |]. split; [discriminate | reflexivity].
Qed.

End Fallback.

(** The requested value behind a set bit of the mask. *)
Lemma requested_mtime options times :
  getFullOptions options = Ok times -> Z.land (getFlags times) 2 <> 0 ->
  get_prop options "mtime" = Ok (JNum (mtime times)).
Proof.
  intros Ht Hm. apply getFlags_mtime in Hm.
  destruct (getFullOptions_ok_inv _ _ Ht) as (b & m & a & _ & Hgm & _ & _ & _ & _ & ->).
  cbn [mtime] in *. now rewrite Hgm, (or_zero_truthy m Hm) at 1.
Qed.

Lemma requested_atime options times :
  getFullOptions options = Ok times -> Z.land (getFlags times) 4 <> 0 ->
  get_prop options "atime" = Ok (JNum (atime times)).
Proof.
  intros Ht Ha. apply getFlags_atime in Ha.
  destruct (getFullOptions_ok_inv _ _ Ht) as (b & m & a & _ & _ & Hga & _ & _ & _ & ->).
  cbn [atime] in *. now rewrite Hga, (or_zero_truthy a Ha) at 1.
Qed.

(** A field whose bit is unset is zero in the plan. *)
Lemma or_zero_falsy v : num_truthy (or_zero v) = false -> or_zero v = Num 0.
Proof.
  destruct v as [| | |n| | | | | |]; cbn; try reflexivity.
  destruct (num_truthy n) eqn:Hn; [congruence | reflexivity].
Qed.

Lemma unrequested_atime options times :
  getFullOptions options = Ok times -> Z.land (getFlags times) 4 = 0 ->
  atime times = Num 0.
Proof.
  intros Ht Ha.
  assert (Hf : num_truthy (atime times) = false).
  { destruct (num_truthy (atime times)) eqn:Hn; [| reflexivity].
    now apply getFlags_atime in Hn. }
  destruct (getFullOptions_ok_inv _ _ Ht) as (b & m & a & _ & _ & _ & _ & _ & _ & ->).
  now apply or_zero_falsy.
Qed.

(** A field whose bit is set is a whole number of milliseconds, from 1 to
    2^48-1. *)
Lemma truthy_ms v :
  v = JUndefined \/ time_in_range v -> num_truthy (or_zero v) = true ->
  exists z, is_ms (or_zero v) z /\ 1 <= z <= 2 ^ 48 - 1.
Proof.
  intros [-> | (q & z & -> & Hq & Hz)]; [discriminate |]. cbn.
  destruct (Qeq_bool q 0) eqn:Hq0; cbn; [discriminate |]. rewrite Hq0. intros _.
  exists z. split; [now exists q |].
  assert (z <> 0); [| lia]. intros ->.
  apply Qeq_bool_iff in Hq. change (inject_Z 0) with 0%Q in Hq. congruence.
Qed.

Lemma requested_mtime_ms options times :
  getFullOptions options = Ok times -> Z.land (getFlags times) 2 <> 0 ->
  exists z, is_ms (mtime times) z /\ 1 <= z <= 2 ^ 48 - 1.
Proof.
  intros Ht Hm. apply getFlags_mtime in Hm.
  destruct (getFullOptions_ok_inv _ _ Ht) as (b & m & a & _ & _ & _ & _ & Hr & _ & ->).
  now apply truthy_ms.
Qed.

Lemma requested_atime_ms options times :
  getFullOptions options = Ok times -> Z.land (getFlags times) 4 <> 0 ->
  exists z, is_ms (atime times) z /\ 1 <= z <= 2 ^ 48 - 1.
Proof.
  intros Ht Ha. apply getFlags_atime in Ha.
  destruct (getFullOptions_ok_inv _ _ Ht) as (b & m & a & _ & _ & _ & _ & _ & Hr & ->).
  now apply truthy_ms.
Qed.

(** The seconds [div1000] makes of a whole number of milliseconds: the
    binary64 value of the quotient, within 2^-11 of it. *)
Lemma ms_seconds n z :
  is_ms n z -> 0 <= z <= MAX_DATE ->
  exists a, div1000 n = Num a /\
            binary64_of (inject_Z z / inject_Z 1000) a /\
            (Qabs (a - inject_Z z / inject_Z 1000) <= pow2 (-11))%Q.
Proof. intros (q & -> & Hq) Hz. now apply div1000_ms. Qed.

Lemma ms_seconds_pos n z :
  is_ms n z -> 1 <= z <= MAX_DATE ->
  exists a, div1000 n = Num a /\ nearest_binary64 (inject_Z z / inject_Z 1000) a.
Proof.
  intros Hn Hz. destruct (ms_seconds n z Hn) as (a & Ha & [[Hx _] | Hnear] & _);
    [lia | | now exists a].
  exfalso.
  assert (Hpos : (0 < inject_Z z / inject_Z 1000)%Q).
  { apply Qlt_shift_div_l; [reflexivity |]. rewrite Qmult_0_l.
    change 0%Q with (inject_Z 0). rewrite <- Zlt_Qlt. lia. }
  rewrite Hx in Hpos. now apply Qlt_irrefl in Hpos.
Qed.

Lemma MAX_DATE_48 : 2 ^ 48 - 1 <= MAX_DATE.
Proof. vm_compute. discriminate. Qed.

(** On the disk with nanosecond timestamps, the combined setter given the
    seconds of two whole numbers of milliseconds leaves timestamps that read
    as those milliseconds, and the btime as it was. *)
Lemma nano_utimes_readings (p : jsstring) (d : gmap jsstring Inode) (f : Inode)
    (na nm : JsNumber) (za zm : Z) :
  d !! p = Some f ->
  is_ms na za -> 0 <= za <= MAX_DATE ->
  is_ms nm zm -> 0 <= zm <= MAX_DATE ->
  exists f',
    nano_utimes p (div1000 na) (div1000 nm) d = Done (<[p := f']> d) /\
    inode_btime f' = inode_btime f /\
    ms_reading (inode_mtime f') = zm /\
    ms_reading (inode_atime f') = za.
Proof.
  intros Hf Hna Hza Hnm Hzm.
  destruct (ms_seconds na za Hna Hza) as (a & Ha & _ & Hea).
  destruct (ms_seconds nm zm Hnm Hzm) as (m & Hm & _ & Hem).
  unfold nano_utimes. rewrite Hf, Ha, Hm. cbn [seconds_to_ns].
  eexists. split; [reflexivity |]. cbn [inode_btime inode_mtime inode_atime].
  split; [reflexivity |]. split; now apply ms_roundtrip.
Qed.

Section FallbackSet.
Context {W : Type} {H : Host W}.
Hypothesis fallback : native_capable = false.

Lemma set_requested paths options targets times (s : State W) :
  normalizePaths paths = Ok targets -> getFullOptions options = Ok times ->
  getFlags times <> 0 ->
  set paths options s = set_targets targets times (getFlags times) s.
Proof.
  intros Hp Ht Hf. rewrite (set_validated _ _ _ _ _ Hp Ht).
  destruct (Z.eqb_spec (getFlags times) 0); [contradiction |].
  destruct targets; reflexivity.
Qed.

Lemma set_one_no_mtime p options times (s : State W) :
  ~ bad_path (JStr p) -> getFullOptions options = Ok times ->
  getFlags times <> 0 -> Z.land (getFlags times) 2 = 0 ->
  set (JStr p) options s =
    match fs_stat p (world s) with
    | Done stats =>
        utimes p (div1000 (atime times)) (div1000 (mtime_getTime stats))
          (called s [OpStat p])
    | Errno code => (Err (SystemError "stat" code p), called s [OpStat p])
    end.
Proof.
  intros Hp Ht Hf Hm.
  rewrite (set_requested _ _ [p] times s (normalizePaths_str p Hp) Ht Hf).
  cbn [set_targets]. unfold then_.
  rewrite (set_target_no_mtime fallback _ _ _ _ Hm).
  destruct (fs_stat p (world s)); [| reflexivity].
  now destruct (utimes p _ _ _) as [[[]|e] s1].
Qed.

End FallbackSet.

(** C2. On a fallback platform with the MTIME bit set, the calls of [set]
    are combined [utimes] calls and nothing else, one per target in the
    order of the list, up to the first that fails: at least one when there
    is a target, all of them when [set] succeeds, so exactly one for a single
    path. The requested mtime is a whole number [zm] of milliseconds and the
    mtime argument is [zm / 1000] as a binary64 number: the quotient rounded
    to the nearest. The atime argument is likewise [za / 1000], with [za]
    the requested atime when the ATIME bit is set and the requested mtime
    otherwise. *)
Theorem set_mtime_fallback {W} {H : Host W} paths options targets times (s : State W) :
  native_capable = false ->
  normalizePaths paths = Ok targets ->
  getFullOptions options = Ok times ->
  Z.land (getFlags times) 2 <> 0 ->
  let a := if negb (Z.land (getFlags times) 4 =? 0) then atime times else mtime times in
  get_prop options "mtime" = Ok (JNum (mtime times)) /\
  (Z.land (getFlags times) 4 <> 0 ->
     get_prop options "atime" = Ok (JNum (atime times))) /\
  exists zm za sm sa,
    is_ms (mtime times) zm /\ 1 <= zm <= 2 ^ 48 - 1 /\
    is_ms a za /\ 1 <= za <= 2 ^ 48 - 1 /\
    div1000 (mtime times) = Num sm /\
    nearest_binary64 (inject_Z zm / inject_Z 1000) sm /\
    div1000 a = Num sa /\
    nearest_binary64 (inject_Z za / inject_Z 1000) sa /\
    exists n,
      (n <= length targets)%nat /\
      (targets <> [] -> (1 <= n)%nat) /\
      (fst (set paths options s) = Ok tt -> n = length targets) /\
      trace (snd (set paths options s)) =
        trace s ++ map (fun target => OpUtimes target (Num sa) (Num sm))
                       (take n targets).
Proof.
  intros Hfb Hp Ht Hm a.
  split; [now apply requested_mtime |].
  split; [now apply requested_atime |].
  pose proof MAX_DATE_48 as Hmax.
  destruct (requested_mtime_ms _ _ Ht Hm) as (zm & Hzm & Hrm).
  assert (Ha : exists za, is_ms a za /\ 1 <= za <= 2 ^ 48 - 1).
  { unfold a. destruct (Z.eqb_spec (Z.land (getFlags times) 4) 0) as [Hz | Hnz];
      cbn [negb]; [now exists zm | now apply (requested_atime_ms _ _ Ht)]. }
  destruct Ha as (za & Hza & Hra).
  destruct (ms_seconds_pos _ _ Hzm) as (sm & Hsm & Hnm); [lia |].
  destruct (ms_seconds_pos _ _ Hza) as (sa & Hsa & Hna); [lia |].
  exists zm, za, sm, sa. repeat (split; [assumption |]).
  assert (Hf : getFlags times <> 0) by (intros Hz; rewrite Hz in Hm; now apply Hm).
  rewrite (set_requested _ _ _ _ s Hp Ht Hf).
  apply (set_targets_mtime_trace Hfb times (getFlags times));
    [exact Hm | symmetry; exact Hsa | symmetry; exact Hsm].
Qed.

Lemma set_mtime_fallback_witness :
  trace (snd (set (H := linux) (JStr (str "a")) (JObj [("mtime", ms 2001)])
                  (start (one_file (str "a") T0))))
  = [OpUtimes (str "a") (Num (4505851427184181 # 2251799813685248))
       (Num (4505851427184181 # 2251799813685248))].
Proof.
  destruct (set_mtime_fallback (H := linux) (JStr (str "a")) (JObj [("mtime", ms 2001)])
              [str "a"]
              {| btime := Num 0; mtime := Num (inject_Z 2001); atime := Num 0 |}
              (start (one_file (str "a") T0)) eq_refl eq_refl eq_refl)
    as (_ & _ & zm & za & sm & sa & _ & _ & _ & _ & Hsm & _ & Hsa & _ &
        n & Hn & Hone & _ & Htr).
  - vm_compute. discriminate.
  - assert (Hn1 : n = 1%nat) by (cbn in Hn; specialize (Hone ltac:(discriminate)); lia).
    subst n. rewrite Htr.
    vm_compute in Hsm. vm_compute in Hsa.
    injection Hsm as <-. injection Hsa as <-. reflexivity.
Defined.




(** C1, the input on which the code departs from the claim. With only btime
    requested on a fallback platform the loop takes its last branch: it
    calls [stat] and then [utimes] with atime 0 and the mtime just read, and
    the file's atime becomes the epoch. *)
Theorem set_btime_only_fallback :
  set (H := linux) (JStr (str "a")) (JObj [("btime", ms 5000)])
      (start (one_file (str "a") T0))
  = (Ok tt,
     {| world := one_file (str "a")
                   {| file_btime := 1000; file_mtime := 2000; file_atime := 0 |};
        trace := [OpStat (str "a");
                  OpUtimes (str "a") (div1000 (Num 0))
                    (div1000 (Num (inject_Z 2000)))] |}).
Proof. vm_compute. reflexivity. Qed.

(** The same on every fallback host and every valid path: a request whose
    mask has neither the MTIME nor the ATIME bit still calls [stat], and
    [utimes] with atime 0 when [stat] succeeds. *)
Lemma set_btime_only_calls {W} {H : Host W} p options times (s : State W) :
  native_capable = false ->
  ~ bad_path (JStr p) ->
  getFullOptions options = Ok times ->
  getFlags times = 1 ->
  set (JStr p) options s =
    match fs_stat p (world s) with
    | Done stats =>
        utimes p (div1000 (Num 0)) (div1000 (mtime_getTime stats))
          (called s [OpStat p])
    | Errno code => (Err (SystemError "stat" code p), called s [OpStat p])
    end.
Proof.
  intros Hfb Hp Ht Hflags.
  rewrite (set_one_no_mtime Hfb _ _ times); try assumption.
  - rewrite (unrequested_atime _ _ Ht); [reflexivity | now rewrite Hflags].
  - now rewrite Hflags.
  - now rewrite Hflags.
Qed.

(** ** Sequential processing of the targets *)

Section Sequence.
Context {W : Type} {H : Host W}.

(** The loop fails exactly when some target fails after all the targets
    before it succeeded; the error and the final state are those of that
    iteration. *)
Lemma set_targets_first_failure times flags : forall targets (s s' : State W) e,
  set_targets targets times flags s = (Err e, s') <->
  exists k target sk,
    targets !! k = Some target /\
    set_targets (take k targets) times flags s = (Ok tt, sk) /\
    set_target target times flags sk = (Err e, s').
Proof.
  induction targets as [|target rest IH]; intros s s' e; cbn [set_targets].
  - split; [discriminate |]. intros (k & t & sk & Hk & _). destruct k; discriminate Hk.
  - unfold then_. split.
    + destruct (set_target target times flags s) as [[[]|e1] s1] eqn:Hstep.
      * intros Hrest. apply IH in Hrest as (k & t & sk & Hk & Hpre & Hfail).
        exists (S k), t, sk. repeat split; [exact Hk | | exact Hfail].
        cbn [take firstn set_targets]. unfold then_. now rewrite Hstep.
      * intros [= <- <-]. exists 0%nat, target, s. now repeat split.
    + intros (k & t & sk & Hk & Hpre & Hfail). destruct k as [|k].
      * cbn in Hk, Hpre. injection Hk as <-. injection Hpre as <-.
        now rewrite Hfail.
      * cbn [take firstn set_targets lookup list_lookup] in Hk, Hpre.
        unfold then_ in Hpre.
        destruct (set_target target times flags s) as [[[]|e1] s1]; [| discriminate].
        apply IH. now exists k, t, sk.
Qed.

(** One iteration succeeds exactly as [applied] tells, and leaves the world
    the host returned and the trace with the calls made. *)
Lemma set_target_ok_iff target times flags (s s1 : State W) :
  set_target target times flags s = (Ok tt, s1) <->
  exists ops,
    applied times flags target (world s) ops (world s1) /\
    trace s1 = trace s ++ ops.
Proof.
  unfold set_target. fold (native_capable (H := H)). split.
  - destruct native_capable eqn:Hn.
    + unfold callBinding. destruct (pathBuffer target) as [buffer|e] eqn:Hb;
        [| discriminate].
      destruct (binding_utimes buffer flags _ _ _ (world s)) as [status w'] eqn:Hst.
      destruct (Z.eqb_spec status 0) as [-> | Hne]; cbn [negb]; [| discriminate].
      intros [= <-]. eexists. split; [| reflexivity].
      now apply (applied_native times flags target (world s) buffer w').
    + destruct (Z.eqb_spec (Z.land flags 2) 0) as [Hm | Hm]; cbn [negb].
      * unfold then_, stat. destruct (fs_stat target (world s)) as [stats|code] eqn:Hs;
          [| discriminate].
        unfold utimes. cbn [world trace].
        destruct (fs_utimes target _ _ (world s)) as [w'|code] eqn:Hu; [| discriminate].
        intros [= <-]. cbn [world trace]. eexists. split;
          [| rewrite <- app_assoc; reflexivity].
        now apply (applied_atime times flags target (world s) stats w').
      * unfold utimes.
        destruct (fs_utimes target _ _ (world s)) as [w'|code] eqn:Hu; [| discriminate].
        intros [= <-]. eexists. split; [| reflexivity].
        now apply (applied_mtime times flags target (world s) w').
  - intros (ops & Happ & Htr). destruct s1 as [w1 tr1]. cbn [world trace] in *. subst tr1.
    destruct Happ as [buffer w' Hn Hb Hst | w' Hn Hm Hu | stats w' Hn Hm Hs Hu];
      rewrite Hn.
    + unfold callBinding. rewrite Hb, Hst. reflexivity.
    + destruct (Z.eqb_spec (Z.land flags 2) 0) as [Hz | _]; [contradiction |].
      cbn [negb]. unfold utimes. rewrite Hu. reflexivity.
    + rewrite Hm. cbn [Z.eqb negb]. unfold then_, stat. rewrite Hs.
      unfold utimes. cbn [world trace]. rewrite Hu, <- app_assoc. reflexivity.
Qed.

(** One iteration fails exactly as [failed] tells: with that error, the
    calls made added to the trace, and the world as the host left it. *)
Lemma set_target_err_iff target times flags (s s1 : State W) e :
  set_target target times flags s = (Err e, s1) <->
  exists ops,
    failed times flags target (world s) ops e (world s1) /\
    trace s1 = trace s ++ ops.
Proof.
  unfold set_target. fold (native_capable (H := H)). split.
  - destruct native_capable eqn:Hn.
    + unfold callBinding. destruct (pathBuffer target) as [buffer|e0] eqn:Hb.
      * destruct (binding_utimes buffer flags _ _ _ (world s)) as [status w'] eqn:Hst.
        destruct (Z.eqb_spec status 0) as [-> | Hne]; cbn [negb]; [discriminate |].
        intros [= <- <-]. eexists. split; [| reflexivity].
        now apply (failed_native times flags target (world s) buffer status w').
      * intros [= <- <-]. exists []. split; [| now rewrite app_nil_r].
        now apply failed_buffer.
    + destruct (Z.eqb_spec (Z.land flags 2) 0) as [Hm | Hm]; cbn [negb].
      * unfold then_, stat. destruct (fs_stat target (world s)) as [stats|code] eqn:Hs.
        -- unfold utimes. cbn [world trace].
           destruct (fs_utimes target _ _ (world s)) as [w'|code] eqn:Hu; [discriminate |].
           intros [= <- <-]. cbn [world trace]. eexists. split;
             [| rewrite <- app_assoc; reflexivity].
           now apply (failed_atime times flags target (world s) stats code).
        -- intros [= <- <-]. eexists. split; [| reflexivity].
           now apply failed_stat.
      * unfold utimes.
        destruct (fs_utimes target _ _ (world s)) as [w'|code] eqn:Hu; [discriminate |].
        intros [= <- <-]. eexists. split; [| reflexivity].
        now apply failed_mtime.
  - intros (ops & Hfail & Htr). destruct s1 as [w1 tr1]. cbn [world trace] in *. subst tr1.
    destruct Hfail as [e0 Hn Hb | buffer status w' Hn Hb Hst Hne | code Hn Hm Hu
                       | code Hn Hm Hs | stats code Hn Hm Hs Hu];
      rewrite Hn.
    + unfold callBinding. rewrite Hb, app_nil_r. now destruct s.
    + unfold callBinding. rewrite Hb, Hst.
      destruct (Z.eqb_spec status 0); [contradiction | reflexivity].
    + destruct (Z.eqb_spec (Z.land flags 2) 0) as [Hz | _]; [contradiction |].
      cbn [negb]. unfold utimes. rewrite Hu. reflexivity.
    + rewrite Hm. cbn [Z.eqb negb]. unfold then_, stat. rewrite Hs. reflexivity.
    + rewrite Hm. cbn [Z.eqb negb]. unfold then_, stat. rewrite Hs.
      unfold utimes. cbn [world trace]. rewrite Hu, <- app_assoc. reflexivity.
Qed.

(** The loop succeeds exactly when the iterations succeed one after the
    other, each from the world the one before returned. *)
Lemma set_targets_ok_iff times flags : forall targets (s s1 : State W),
  set_targets targets times flags s = (Ok tt, s1) <->
  exists ops,
    applied_all times flags targets (world s) ops (world s1) /\
    trace s1 = trace s ++ ops.
Proof.
  induction targets as [|target rest IH]; intros s s1; cbn [set_targets].
  - unfold resolve. split.
    + intros [= <-]. exists []. split; [constructor | now rewrite app_nil_r].
    + intros (ops & Hall & Htr). inversion Hall; subst.
      rewrite app_nil_r in Htr. destruct s, s1. cbn in *. congruence.
  - unfold then_. split.
    + destruct (set_target target times flags s) as [[[]|e] s0] eqn:Hstep; [| discriminate].
      intros Hrest. apply set_target_ok_iff in Hstep as (ops & Happ & Htr).
      apply IH in Hrest as (ops' & Hall & Htr').
      exists (ops ++ ops'). split; [econstructor; eassumption |].
      now rewrite Htr', Htr, <- app_assoc.
    + intros (ops & Hall & Htr).
      inversion Hall as [| ? ? ? ops1 w1 ops2 ? Happ Hrest]; subst.
      assert (Hstep : set_target target times flags s
                      = (Ok tt, {| world := w1; trace := trace s ++ ops1 |})).
      { apply set_target_ok_iff. now exists ops1. }
      rewrite Hstep. apply IH. exists ops2. split; [exact Hrest |].
      cbn [trace]. now rewrite Htr, <- app_assoc.
Qed.

(** C8. The targets are those of the array, in its order. With a field
    requested, [set] succeeds exactly when the iterations succeed one after
    the other, each on the world the one before returned. It rejects with
    [e] exactly when, for some index [k], the iterations on targets [0..k-1]
    succeed in that way, giving a world [wk] in which their changes are
    made, and the iteration on target [k] fails with [e] from [wk]. The
    world [set] then leaves is the one that failing iteration leaves, which
    is [wk] itself when a call to [fs] failed: nothing is undone. The calls
    made are those of the iterations on targets [0..k-1], at least one each,
    followed by those of the failing iteration: none for a later target. *)
Theorem set_first_failure paths options targets times (s s' : State W) e :
  normalizePaths paths = Ok targets ->
  getFullOptions options = Ok times ->
  getFlags times <> 0 ->
  (forall elems, paths = JArr elems -> elems = map JStr targets) /\
  (set paths options s = (Ok tt, s') <->
   exists ops,
     applied_all times (getFlags times) targets (world s) ops (world s') /\
     trace s' = trace s ++ ops) /\
  (set paths options s = (Err e, s') <->
   exists k target wk ops ops',
     targets !! k = Some target /\
     applied_all times (getFlags times) (take k targets) (world s) ops wk /\
     failed times (getFlags times) target wk ops' e (world s') /\
     trace s' = trace s ++ ops ++ ops') /\
  (forall target w ops w',
     applied times (getFlags times) target w ops w' -> ops <> []) /\
  (forall target w ops e' w',
     native_capable = false ->
     failed times (getFlags times) target w ops e' w' -> w' = w).
Proof.
  intros Hp Ht Hf. split; [| split; [| split; [| split]]].
  - intros elems ->. now apply (assertPaths_ok elems 0).
  - rewrite (set_requested _ _ _ _ s Hp Ht Hf). apply set_targets_ok_iff.
  - rewrite (set_requested _ _ _ _ s Hp Ht Hf), set_targets_first_failure.
    split.
    + intros (k & target & sk & Hk & Hpre & Hfail).
      apply set_targets_ok_iff in Hpre as (ops & Hall & Htr).
      apply set_target_err_iff in Hfail as (ops' & Hfail & Htr').
      exists k, target, (world sk), ops, ops'. repeat split; try assumption.
      now rewrite Htr', Htr, <- app_assoc.
    + intros (k & target & wk & ops & ops' & Hk & Hall & Hfail & Htr).
      exists k, target, {| world := wk; trace := trace s ++ ops |}.
      split; [exact Hk |]. split.
      * apply set_targets_ok_iff. now exists ops.
      * apply set_target_err_iff. exists ops'. split; [exact Hfail |].
        cbn [trace]. now rewrite Htr, <- app_assoc.
  - intros target w ops w' Happ. destruct Happ; discriminate.
  - intros target w ops e' w' Hn Hfail.
    destruct Hfail; try reflexivity; congruence.
Qed.

End Sequence.

Lemma set_first_failure_witness :
  set (H := linux) (JArr [JStr (str "a"); JStr (str "b"); JStr (str "a")])
      (JObj [("mtime", ms 7000)]) (start (one_file (str "a") T0))
  = (Err (SystemError "utimes" ENOENT (str "b")),
     {| world := one_file (str "a")
                   {| file_btime := 1000; file_mtime := 7000; file_atime := 7000 |};
        trace := [OpUtimes (str "a") (Num 7) (Num 7);
                  OpUtimes (str "b") (Num 7) (Num 7)] |}).
Proof.
  pose (times := {| btime := Num 0; mtime := Num (inject_Z 7000); atime := Num 0 |}).
  apply (proj2 (proj1 (proj2 (proj2
           (set_first_failure (H := linux)
              (JArr [JStr (str "a"); JStr (str "b"); JStr (str "a")])
              (JObj [("mtime", ms 7000)]) [str "a"; str "b"; str "a"] times
              (start (one_file (str "a") T0))
              {| world := one_file (str "a")
                            {| file_btime := 1000; file_mtime := 7000;
                               file_atime := 7000 |};
                 trace := [OpUtimes (str "a") (Num 7) (Num 7);
                           OpUtimes (str "b") (Num 7) (Num 7)] |}
              (SystemError "utimes" ENOENT (str "b"))
              eq_refl eq_refl ltac:(vm_compute; discriminate)))))).
  exists 1%nat, (str "b"),
    (one_file (str "a") {| file_btime := 1000; file_mtime := 7000; file_atime := 7000 |}),
    [OpUtimes (str "a") (Num 7) (Num 7)], [OpUtimes (str "b") (Num 7) (Num 7)].
  split; [reflexivity |]. split; [| split; [| reflexivity]].
  - apply (applied_cons (H := linux) times (getFlags times) (str "a") []
             (one_file (str "a") T0)
             [OpUtimes (str "a") (Num 7) (Num 7)]
             (one_file (str "a")
                {| file_btime := 1000; file_mtime := 7000; file_atime := 7000 |})
             []
             (one_file (str "a")
                {| file_btime := 1000; file_mtime := 7000; file_atime := 7000 |}));
      [| constructor].
    apply (applied_mtime (H := linux) times (getFlags times) (str "a"));
      [reflexivity | vm_compute; discriminate | vm_compute; reflexivity].
  - apply (failed_mtime (H := linux) times (getFlags times) (str "b"));
      [reflexivity | vm_compute; discriminate | vm_compute; reflexivity].
Defined.

(** ** The path buffer *)

Lemma utf8_char_null c : In 0 (utf8_char c) <-> c = 0.
Proof.
  unfold utf8_char. split.
  - destruct (c <? 128); [intros [Hc | []]; exact Hc |].
    destruct (c <? 2048); [| destruct (c <? 65536)]; cbn [In];
      intros Hin; exfalso;
      repeat (destruct Hin as [Hin | Hin];
              [apply Z.lor_eq_0_iff in Hin as [Hin _]; discriminate Hin |]);
      exact Hin.
  - intros ->. left. reflexivity.
Qed.

Lemma code_points_null_bounded : forall n s,
  (length s <= n)%nat -> In 0 (code_points s) <-> In 0 s.
Proof.
  induction n as [|n IH]; intros s Hlen.
  - destruct s; [reflexivity | cbn in Hlen; lia].
  - destruct s as [|u rest]; [reflexivity |].
    cbn [length] in Hlen. cbn [code_points].
    assert (Hrest : In 0 (code_points rest) <-> In 0 rest) by (apply IH; lia).
    unfold is_high_surrogate, is_low_surrogate.
    destruct (Z.leb_spec 0xD800 u); cbn [andb].
    + destruct (Z.leb_spec u 0xDBFF); cbn [andb].
      * destruct rest as [|v rest'].
        { cbn [In]. split; intros [Hx | Hx]; lia || now destruct Hx. }
        destruct (Z.leb_spec 0xDC00 v); cbn [andb].
        { destruct (Z.leb_spec v 0xDFFF).
          - assert (Hrest' : In 0 (code_points rest') <-> In 0 rest')
              by (apply IH; cbn [length] in Hlen; lia).
            pose proof (Z.shiftl_nonneg (u - 0xD800) 10) as Hsh.
            cbn [In]. rewrite Hrest'. split; intros Hx; intuition lia.
          - cbn [In] in *. rewrite Hrest. split; intros Hx; intuition lia. }
        cbn [In] in *. rewrite Hrest. split; intros Hx; intuition lia.
      * destruct (Z.leb_spec 0xDC00 u); cbn [andb].
        { destruct (Z.leb_spec u 0xDFFF);
            cbn [In]; rewrite Hrest; split; intros Hx; intuition lia. }
        cbn [In]. rewrite Hrest. reflexivity.
    + destruct (Z.leb_spec 0xDC00 u); [lia |]. cbn [andb In]. now rewrite Hrest.
Qed.

(** The encoding has a null byte exactly when the string has a null
    character. *)
Lemma utf8_null s : In 0 (utf8 s) <-> In 0 s.
Proof.
  rewrite <- (code_points_null_bounded (length s) s (Nat.le_refl _)).
  unfold utf8. generalize (code_points s) as chars.
  induction chars as [|c chars IH]; [reflexivity |].
  cbn [map concat In]. rewrite in_app_iff, IH, utf8_char_null.
  split; intros [Hx | Hx]; auto.
Qed.

(** With room for the whole encoding, all of it is written. *)
Lemma utf8_fit_all chars :
  utf8_fit chars (length (concat (map utf8_char chars))) = concat (map utf8_char chars).
Proof.
  induction chars as [|c chars IH]; [reflexivity |].
  cbn [map concat utf8_fit]. rewrite length_app.
  destruct (Nat.leb_spec (length (utf8_char c))
              (length (utf8_char c) + length (concat (map utf8_char chars)))); [| lia].
  f_equal. rewrite <- IH at 2. f_equal. lia.
Qed.

Lemma indexOf_terminator l :
  indexOf 0 (l ++ [0]) = Z.of_nat (length l) <-> ~ In 0 l.
Proof.
  induction l as [|y l IH]; cbn [app indexOf length In].
  - split; [tauto | reflexivity].
  - pose proof (indexOf_range 0 (l ++ [0])) as Hr.
    destruct (Z.eqb_spec y 0) as [-> | Hy].
    + split; [lia | tauto].
    + destruct (Z.eqb_spec (indexOf 0 (l ++ [0])) (-1)) as [Hi | Hi].
      * exfalso. apply indexOf_absent in Hi. apply Hi, in_app_iff. right. now left.
      * split.
        -- intros Hx [Hy0 | Hin]; [congruence |]. apply (proj1 IH); [lia | exact Hin].
        -- intros Hx. assert (Hl : ~ In 0 l) by tauto. apply IH in Hl. lia.
Qed.

Section PathBuffer.
Context {W : Type} {H : Host W}.

(** The buffer is the encoding of the long path followed by one zero byte,
    and the test is made on it. *)
Lemma pathBuffer_unfold target :
  pathBuffer target =
    let bytes := utf8 (makeLong target) in
    if negb (indexOf 0 (bytes ++ [0]) =? Z.of_nat (length bytes)) then
      Err (Error_ "path must be a string without null bytes")
    else Ok (bytes ++ [0]).
Proof.
  unfold pathBuffer, Buffer_alloc, Buffer_byteLength, Buffer_write.
  set (bytes := utf8 (makeLong target)).
  rewrite length_replicate, Nat.add_sub.
  unfold bytes at 1, utf8. rewrite utf8_fit_all. fold (utf8 (makeLong target)). fold bytes.
  rewrite take_0, drop_replicate. cbn [app].
  replace (length bytes + 1 - (0 + length bytes))%nat with 1%nat by lia.
  cbn [replicate]. rewrite length_app. cbn [length]. rewrite Nat.add_sub.
  replace (<[length bytes := 0]> (bytes ++ [0])) with (bytes ++ [0]).
  2: { rewrite <- (Nat.add_0_r (length bytes)) at 1. now rewrite insert_app_r. }
  rewrite length_app. cbn [length].
  replace (Z.of_nat (length bytes + 1) - 1) with (Z.of_nat (length bytes)) by lia.
  reflexivity.
Qed.

Lemma null_before_terminator (bytes : list Z) :
  In 0 bytes <-> exists i, (i < length bytes)%nat /\ (bytes ++ [0]) !! i = Some 0.
Proof.
  rewrite <- list_elem_of_In, list_elem_of_lookup. split.
  - intros [i Hi]. exists i. pose proof (lookup_lt_Some _ _ _ Hi) as Hlt.
    split; [exact Hlt |]. now rewrite lookup_app_l.
  - intros (i & Hlt & Hi). exists i. now rewrite lookup_app_l in Hi.
Qed.

(** C9. The buffer [pathBuffer] returns is the UTF-8 encoding of the long
    path followed by one zero byte. [pathBuffer] throws its error, an
    [InvalidPath] one, exactly when that buffer has a zero byte before its
    last position, and returns the buffer otherwise. When the long-path form
    adds no null character, it never throws on a path that passed the null
    check of [assertPath] ([indexOf] gave -1). *)
Theorem pathBuffer_spec target :
  let bytes := utf8 (makeLong target) in
  let e := Error_ "path must be a string without null bytes" in
  (forall buffer, pathBuffer target = Ok buffer ->
     buffer = bytes ++ [0] /\ length buffer = S (length bytes) /\
     last buffer = Some 0) /\
  (pathBuffer target = Err e <->
     exists i, (i < length bytes)%nat /\ (bytes ++ [0]) !! i = Some 0) /\
  (pathBuffer target = Ok (bytes ++ [0]) \/ pathBuffer target = Err e) /\
  InvalidPath "path" e /\
  ((forall p, ~ In 0 p -> ~ In 0 (makeLong p)) ->
   indexOf 0 target = -1 ->
   pathBuffer target = Ok (bytes ++ [0])).
Proof.
  intros bytes e. rewrite pathBuffer_unfold. fold bytes. cbv zeta.
  pose proof (indexOf_terminator bytes) as Hterm.
  rewrite <- null_before_terminator.
  destruct (Z.eqb_spec (indexOf 0 (bytes ++ [0])) (Z.of_nat (length bytes))) as [Hi | Hi];
    cbn [negb].
  - assert (Hn : ~ In 0 bytes) by now apply Hterm.
    split; [| split; [| split; [| split]]].
    + intros buffer [= <-]. rewrite length_app, last_snoc. cbn [length].
      repeat split. lia.
    + split; [discriminate | contradiction].
    + now left.
    + right. right. reflexivity.
    + reflexivity.
  - assert (Hin : In 0 bytes).
    { destruct (in_dec Z.eq_dec 0 bytes) as [Hin | Hn]; [exact Hin |].
      now apply Hterm in Hn. }
    split; [| split; [| split; [| split]]].
    + discriminate.
    + split; [intros _; exact Hin | reflexivity].
    + now right.
    + right. right. reflexivity.
    + intros Hlong Hgood. exfalso. apply (proj1 (utf8_null (makeLong target))) in Hin.
      apply (Hlong target); [| exact Hin].
      now apply indexOf_absent.
Qed.

End PathBuffer.

Lemma pathBuffer_spec_witness :
  pathBuffer (H := darwin) [0x61; 0xE9; 0xD83D; 0xDE00]
  = Ok ([0x61; 0xC3; 0xA9; 0xF0; 0x9F; 0x98; 0x80] ++ [0]).
Proof.
  apply (pathBuffer_spec (H := darwin) [0x61; 0xE9; 0xD83D; 0xDE00]).
  - intros p Hp. exact Hp.
  - reflexivity.
Defined.

(** * Further properties *)

(** ** Validation *)

(** X6. [assertTime] accepts exactly an absent field and the integers of
    0 .. 2^48-1, whatever the name of the field. *)
Theorem assertTime_ok_iff key v :
  assertTime key v = Ok tt <-> v = JUndefined \/ time_in_range v.
Proof. split; [apply assertTime_ok_inv | apply assertTime_accepts]. Qed.

Lemma assertPaths_good targets : forall i0,
  Forall (fun t => ~ bad_path (JStr t)) targets ->
  assertPaths i0 (map JStr targets) = Ok targets.
Proof.
  induction targets as [|t targets IH]; intros i0 Hall; [reflexivity |].
  inversion Hall as [|? ? Ht Hrest]; subst. cbn [map assertPaths].
  rewrite (assertPath_ok _ _ Ht). cbn [rbind]. now rewrite (IH (S i0) Hrest).
Qed.

Lemma assertPaths_ok_good elems : forall i0 targets,
  assertPaths i0 elems = Ok targets ->
  Forall (fun t => ~ bad_path (JStr t)) targets.
Proof.
  induction elems as [|v elems IH]; intros i0 targets; cbn [assertPaths].
  - intros [= <-]. constructor.
  - destruct (assertPath (paths_key i0) v) as [t|e] eqn:Ht; [|discriminate].
    cbn [rbind]. destruct (assertPaths (S i0) elems) as [ts|e] eqn:Hts; [|discriminate].
    intros [= <-]. apply assertPath_ok_inv in Ht as [-> Hg].
    constructor; [exact Hg | now apply (IH (S i0))].
Qed.

(** X5. [normalizePaths] accepts an array exactly when every element is a
    non-empty string without a null character, and the targets are then the
    elements themselves, as many and in the same order. *)
Theorem normalizePaths_array_iff elems targets :
  normalizePaths (JArr elems) = Ok targets <->
  elems = map JStr targets /\
  Forall (fun t => t <> [] /\ ~ In 0 t) targets.
Proof.
  cbn [normalizePaths]. split.
  - intros Hok. split; [now apply (assertPaths_ok elems 0) |].
    apply assertPaths_ok_good in Hok.
    eapply Forall_impl; [exact Hok |]. cbn. intros t Ht. tauto.
  - intros [-> Hall]. apply assertPaths_good.
    eapply Forall_impl; [exact Hall |]. cbn. intros t Ht. tauto.
Qed.

(** X13. For a valid path, the string and the one-element array holding it
    are the same request. *)
Theorem set_string_as_singleton {W} {H : Host W} p options (s : State W) :
  ~ bad_path (JStr p) ->
  set (JStr p) options s = set (JArr [JStr p]) options s.
Proof.
  intros Hg. unfold set.
  rewrite (normalizePaths_str p Hg).
  cbn [normalizePaths assertPaths]. now rewrite (assertPath_ok _ _ Hg).
Qed.

Lemma set_string_as_singleton_witness :
  set (H := linux) (JStr (str "a")) (JObj [("mtime", ms 7000)])
      (start (one_file (str "a") T0))
  = set (H := linux) (JArr [JStr (str "a")]) (JObj [("mtime", ms 7000)])
      (start (one_file (str "a") T0)).
Proof.
  apply (set_string_as_singleton (H := linux)).
  intros [Hnil | Hin]; [discriminate Hnil |].
  cbn in Hin. destruct Hin as [Hin | []]. discriminate Hin.
Defined.

(** ** The plan *)

Lemma or_zero_in_range v :
  v = JUndefined \/ time_in_range v ->
  exists q z, or_zero v = Num q /\ (q == inject_Z z)%Q /\ 0 <= z <= 2 ^ 48 - 1.
Proof.
  intros [-> | (q & z & -> & Hq & Hz)].
  - exists 0%Q, 0. cbn. repeat split; lia.
  - cbn. destruct (Qeq_bool q 0); cbn.
    + exists 0%Q, 0. repeat split; lia.
    + exists q, z. now repeat split.
Qed.

(** X7. Every field of a plan is an integer number of milliseconds between
    0 and 2^48-1, whatever the options were: no NaN, no infinity, no
    fraction and no negative number ever leaves [getFullOptions]. *)
Theorem getFullOptions_range options times :
  getFullOptions options = Ok times ->
  ms_in_range (btime times) /\ ms_in_range (mtime times) /\ ms_in_range (atime times).
Proof.
  intros Ht.
  destruct (getFullOptions_ok_inv _ _ Ht) as (b & m & a & _ & _ & _ & Hb & Hm & Ha & ->).
  cbn [btime mtime atime]. unfold ms_in_range.
  repeat split; now apply or_zero_in_range.
Qed.

Lemma getFullOptions_range_witness :
  ms_in_range (Num (inject_Z 7000)) /\ ms_in_range (Num 0) /\ ms_in_range (Num 0).
Proof.
  apply (getFullOptions_range (JObj [("btime", ms 7000); ("atime", ms 0)])
           {| btime := Num (inject_Z 7000); mtime := Num 0; atime := Num 0 |}).
  reflexivity.
Defined.

Lemma truthy_iff_requested v :
  v = JUndefined \/ time_in_range v ->
  num_truthy (or_zero v) = true <-> ~ not_requested v.
Proof.
  unfold not_requested. intros [-> | (q & z & -> & _)].
  - cbn. split; [discriminate | intros Hn; exfalso; apply Hn; now left].
  - cbn. destruct (Qeq_bool q 0) eqn:Hq; cbn.
    + split; [discriminate |]. intros Hn. exfalso. apply Hn. right.
      exists q. split; [reflexivity | now apply Qeq_bool_iff].
    + assert (Hq0 : Qeq_bool q 0 = false) by exact Hq. rewrite Hq0. cbn.
      split; [| reflexivity]. intros _ [Hu | (q' & [= <-] & Hq')]; [discriminate |].
      apply Qeq_bool_iff in Hq'. congruence.
Qed.

Lemma getFlags_testbits times :
  0 <= getFlags times <= 7 /\
  Z.testbit (getFlags times) 0 = num_truthy (btime times) /\
  Z.testbit (getFlags times) 1 = num_truthy (mtime times) /\
  Z.testbit (getFlags times) 2 = num_truthy (atime times).
Proof.
  rewrite getFlags_bits.
  destruct (num_truthy (btime times)), (num_truthy (mtime times)),
    (num_truthy (atime times)); vm_compute; intuition congruence.
Qed.

(** X3. The mask of a plan lies in 0 .. 7, and each of its three bits is set
    exactly when the option of that name is present and not zero: bit 0 for
    btime, bit 1 for mtime, bit 2 for atime. *)
Theorem getFlags_mask options times b m a :
  getFullOptions options = Ok times ->
  get_prop options "btime" = Ok b ->
  get_prop options "mtime" = Ok m ->
  get_prop options "atime" = Ok a ->
  0 <= getFlags times <= 7 /\
  (Z.testbit (getFlags times) 0 = true <-> ~ not_requested b) /\
  (Z.testbit (getFlags times) 1 = true <-> ~ not_requested m) /\
  (Z.testbit (getFlags times) 2 = true <-> ~ not_requested a).
Proof.
  intros Ht Hb Hm Ha.
  destruct (getFullOptions_ok_inv _ _ Ht)
    as (b' & m' & a' & Hb' & Hm' & Ha' & Rb & Rm & Ra & ->).
  rewrite Hb in Hb'. rewrite Hm in Hm'. rewrite Ha in Ha'.
  injection Hb' as <-. injection Hm' as <-. injection Ha' as <-.
  destruct (getFlags_testbits
              {| btime := or_zero b; mtime := or_zero m; atime := or_zero a |})
    as (Hr & -> & -> & ->).
  cbn [btime mtime atime].
  split; [exact Hr |]. repeat split; now apply truthy_iff_requested.
Qed.

Lemma getFlags_mask_witness :
  let times := {| btime := Num (inject_Z 7000); mtime := Num 0; atime := Num 0 |} in
  0 <= getFlags times <= 7 /\
  (Z.testbit (getFlags times) 0 = true <-> ~ not_requested (ms 7000)) /\
  (Z.testbit (getFlags times) 1 = true <-> ~ not_requested JUndefined) /\
  (Z.testbit (getFlags times) 2 = true <-> ~ not_requested (ms 0)).
Proof.
  apply (getFlags_mask (JObj [("btime", ms 7000); ("atime", ms 0)])); reflexivity.
Defined.

Lemma getFullOptions_zero_field k q props :
  (q == 0)%Q ->
  getFullOptions (JObj ((k, JNum (Num q)) :: props)) =
  getFullOptions (JObj ((k, JUndefined) :: props)).
Proof.
  intros Hq. rewrite !getFullOptions_obj. cbn [assoc].
  assert (Ha : forall key, assertTime key (JNum (Num q)) = Ok tt).
  { intros key. apply assertTime_accepts. right. exists q, 0.
    repeat split; [exact Hq | lia | lia]. }
  assert (Hz : or_zero (JNum (Num q)) = Num 0).
  { cbn. apply Qeq_bool_iff in Hq. now rewrite Hq. }
  destruct (String.eqb k "btime"), (String.eqb k "mtime"), (String.eqb k "atime");
    rewrite ?Ha, ?Hz; reflexivity.
Qed.

(** X4. A time of zero asks for nothing: with the first entry of the
    options holding zero, [set] does exactly what it does with that entry
    undefined, so the epoch itself cannot be requested. *)
Theorem set_zero_is_unrequested {W} {H : Host W} paths k q props (s : State W) :
  (q == 0)%Q ->
  set paths (JObj ((k, JNum (Num q)) :: props)) s =
  set paths (JObj ((k, JUndefined) :: props)) s.
Proof.
  intros Hq. unfold set. now rewrite (getFullOptions_zero_field k q props Hq).
Qed.

Lemma set_zero_is_unrequested_witness :
  set (H := linux) (JStr (str "a")) (JObj [("mtime", ms 0); ("atime", ms 5000)])
      (start (one_file (str "a") T0))
  = set (H := linux) (JStr (str "a")) (JObj [("mtime", JUndefined); ("atime", ms 5000)])
      (start (one_file (str "a") T0)).
Proof.
  apply (set_zero_is_unrequested (H := linux)). reflexivity.
Defined.

(** ** The path buffer as a C string *)

Lemma pathBuffer_ok_inv {W} {H : Host W} target buffer :
  pathBuffer target = Ok buffer ->
  buffer = utf8 (makeLong target) ++ [0] /\ ~ In 0 (utf8 (makeLong target)).
Proof.
  rewrite pathBuffer_unfold. cbv zeta.
  destruct (Z.eqb_spec (indexOf 0 (utf8 (makeLong target) ++ [0]))
              (Z.of_nat (length (utf8 (makeLong target))))) as [Hi | Hi];
    cbn [negb]; [| discriminate].
  intros [= <-]. split; [reflexivity | now apply indexOf_terminator].
Qed.

(** X8. A buffer [pathBuffer] returns is a well-formed C string of the whole
    path: its first zero byte is its last byte, and the bytes before it are
    the UTF-8 encoding of the long path, none cut off. *)
Theorem pathBuffer_c_string {W} {H : Host W} target buffer :
  pathBuffer target = Ok buffer ->
  indexOf 0 buffer = Z.of_nat (length buffer) - 1 /\
  c_string buffer = utf8 (makeLong target).
Proof.
  intros Hok. apply pathBuffer_ok_inv in Hok as [-> Hn].
  apply indexOf_terminator in Hn. unfold c_string. rewrite Hn, Nat2Z.id.
  split; [rewrite length_app; cbn [length]; lia | apply take_app_length].
Qed.

Lemma pathBuffer_c_string_witness :
  indexOf 0 [0x61; 0xC3; 0xA9; 0] = Z.of_nat (length [0x61; 0xC3; 0xA9; 0]) - 1 /\
  c_string [0x61; 0xC3; 0xA9; 0] = utf8 [0x61; 0xE9].
Proof.
  apply (pathBuffer_c_string (H := darwin) [0x61; 0xE9]). reflexivity.
Defined.

Lemma utf8_ascii s : Forall (fun u => 0 < u < 128) s -> utf8 s = s.
Proof.
  unfold utf8. induction 1 as [|u s Hu Hs IH]; [reflexivity |].
  cbn [code_points]. unfold is_high_surrogate, is_low_surrogate.
  destruct (Z.leb_spec 0xD800 u); [lia |].
  destruct (Z.leb_spec 0xDC00 u); [lia |]. cbn [andb map concat].
  rewrite IH. unfold utf8_char.
  destruct (Z.ltb_spec u 128); [reflexivity | lia].
Qed.

(** X9. When the long path is plain ASCII, code units 1 .. 127, the buffer
    is that path, one byte per character, followed by the zero byte. *)
Theorem pathBuffer_ascii {W} {H : Host W} target :
  Forall (fun u => 0 < u < 128) (makeLong target) ->
  pathBuffer target = Ok (makeLong target ++ [0]).
Proof.
  intros Hascii. rewrite pathBuffer_unfold. cbv zeta.
  rewrite (utf8_ascii _ Hascii).
  assert (Hn : ~ In 0 (makeLong target)).
  { intros Hin. rewrite Forall_forall in Hascii.
    apply list_elem_of_In, Hascii in Hin. lia. }
  apply indexOf_terminator in Hn. rewrite Hn, Z.eqb_refl. reflexivity.
Qed.

Lemma pathBuffer_ascii_witness :
  pathBuffer (H := darwin) (str "/tmp/a") = Ok (str "/tmp/a" ++ [0]).
Proof.
  apply (pathBuffer_ascii (H := darwin)).
  repeat constructor.
Defined.

(** ** Dispatch on the native platforms *)

Section Native.
Context {W : Type} {H : Host W}.

(** Each iteration calls the binding on the native platforms and only [fs]
    on the others. *)
Lemma set_target_kind target times flags (s : State W) :
  exists ops,
    Forall (fun op => is_binding op = native_capable) ops /\
    trace (snd (set_target target times flags s)) = trace s ++ ops.
Proof.
  unfold set_target, native_capable.
  destruct (String.eqb platform "win32" || String.eqb platform "darwin").
  - unfold callBinding. destruct (pathBuffer target) as [buffer|e].
    + destruct (binding_utimes buffer flags _ _ _ (world s)) as [result w'].
      eexists [_]. split; [| now destruct (negb (result =? 0))].
      now repeat constructor.
    + exists []. split; [constructor | cbn; now rewrite app_nil_r].
  - destruct (negb (Z.land flags 2 =? 0)).
    + eexists [_]. split; [| apply utimes_trace]. now repeat constructor.
    + unfold then_, stat. destruct (fs_stat target (world s)) as [stats|code].
      * eexists [_; _]. split; [| rewrite utimes_trace; cbn [trace];
                                  rewrite <- app_assoc; reflexivity].
        now repeat constructor.
      * exists [OpStat target]. split; [now repeat constructor | reflexivity].
Qed.

Lemma set_targets_kind times flags : forall targets (s : State W),
  exists ops,
    Forall (fun op => is_binding op = native_capable) ops /\
    trace (snd (set_targets targets times flags s)) = trace s ++ ops.
Proof.
  induction targets as [|target rest IH]; intros s; cbn [set_targets].
  - exists []. split; [constructor | cbn; now rewrite app_nil_r].
  - unfold then_.
    destruct (set_target_kind target times flags s) as (ops & Hops & Htr).
    destruct (set_target target times flags s) as [[[]|e] s1]; cbn [snd] in *.
    + destruct (IH s1) as (ops' & Hops' & Htr').
      exists (ops ++ ops'). split; [now apply Forall_app |].
      now rewrite Htr', Htr, <- app_assoc.
    + now exists ops.
Qed.

(** X10. Whatever its arguments, [set] only appends to the trace, and the
    calls it makes are all calls to the native binding on win32 and darwin
    and all calls to [fs.stat] or [fs.utimes] on every other platform. *)
Theorem set_calls_by_platform paths options (s : State W) :
  exists ops,
    Forall (fun op => is_binding op = native_capable) ops /\
    trace (snd (set paths options s)) = trace s ++ ops.
Proof.
  unfold set.
  assert (Hnone : exists ops : list FsOp,
             Forall (fun op => is_binding op = native_capable) ops /\
             trace s = trace s ++ ops)
    by (exists []; split; [constructor | now rewrite app_nil_r]).
  destruct (normalizePaths paths) as [targets|e]; [| exact Hnone].
  destruct (getFullOptions options) as [times|e]; [| exact Hnone].
  destruct ((getFlags times =? 0) || (Z.of_nat (length targets) =? 0));
    [exact Hnone | apply set_targets_kind].
Qed.

Hypothesis native : native_capable = true.

Lemma set_target_native target times flags (s : State W) :
  set_target target times flags s = callBinding target times flags s.
Proof.
  unfold set_target. unfold native_capable in native. now rewrite native.
Qed.



(** X2. On win32 and darwin, [set] on one valid path with a field requested
    makes a single call to the binding; it succeeds when the status is 0 and
    otherwise rejects with an error that carries the status and the path as
    given, and either way the world is as the binding left it. *)
Theorem set_native_single p options times buffer (s : State W) :
  ~ bad_path (JStr p) ->
  getFullOptions options = Ok times ->
  getFlags times <> 0 ->
  pathBuffer p = Ok buffer ->
  set (JStr p) options s =
    let (status, w') :=
      binding_utimes buffer (getFlags times) (btime times) (mtime times)
        (atime times) (world s) in
    (if status =? 0 then Ok tt else Err (NativeError status p),
     {| world := w';
        trace := trace s ++ [OpBinding buffer (getFlags times) (btime times)
                               (mtime times) (atime times)] |}).
Proof.
  intros Hp Ht Hf Hb.
  rewrite (set_requested _ _ [p] times s (normalizePaths_str p Hp) Ht Hf).
  cbn [set_targets]. unfold then_. rewrite set_target_native.
  unfold callBinding. rewrite Hb.
  destruct (binding_utimes buffer _ _ _ _ (world s)) as [status w'].
  now destruct (status =? 0).
Qed.

End Native.


Lemma set_native_single_witness :
  set (H := darwin) (JStr (str "a")) (JObj [("btime", ms 7000)])
      (start (one_file (str "a") T0))
  = (Ok tt,
     {| world := <[str "a" := {| file_btime := 7000; file_mtime := 2000;
                                 file_atime := 3000 |}]> (one_file (str "a") T0);
        trace := [OpBinding (str "a" ++ [0]) 1 (Num (inject_Z 7000)) (Num 0) (Num 0)] |}).
Proof.
  rewrite (set_native_single (H := darwin) eq_refl (str "a") (JObj [("btime", ms 7000)])
             {| btime := Num (inject_Z 7000); mtime := Num 0; atime := Num 0 |}
             (str "a" ++ [0])).
  - vm_compute. reflexivity.
  - intros [Hnil | Hin]; [discriminate Hnil |].
    cbn in Hin. destruct Hin as [Hin | []]. discriminate Hin.
  - reflexivity.
  - vm_compute. discriminate.
  - reflexivity.
Defined.

(** ** The combined setter on the disk with nanosecond timestamps *)

(** X11. On a fallback platform with the disk of nanosecond timestamps, a
    request with mtime on an existing file succeeds with one [utimes] call.
    Afterwards [stat] reads the requested mtime, to the millisecond; the
    atime reads as the requested atime when there is one and as the
    requested mtime otherwise; the btime is untouched even when btime was
    requested. *)
Theorem set_mtime_on_disk (name : string) (p : jsstring) (options : JsValue)
    (times : FullTimes) (d : gmap jsstring Inode) (f : Inode)
    (tr : list FsOp) :
  native_capable (H := nano_host name) = false ->
  ~ bad_path (JStr p) ->
  getFullOptions options = Ok times ->
  Z.land (getFlags times) 2 <> 0 ->
  d !! p = Some f ->
  let a := if negb (Z.land (getFlags times) 4 =? 0) then atime times else mtime times in
  exists zm za f',
    is_ms (mtime times) zm /\ is_ms a za /\
    set (H := nano_host name) (JStr p) options {| world := d; trace := tr |} =
      (Ok tt,
       {| world := <[p := f']> d;
          trace := tr ++ [OpUtimes p (div1000 a) (div1000 (mtime times))] |}) /\
    inode_btime f' = inode_btime f /\
    ms_reading (inode_mtime f') = zm /\
    ms_reading (inode_atime f') = za /\
    nano_stat p (<[p := f']> d) = Done {| mtime_getTime := Num (inject_Z zm) |}.
Proof.
  intros Hfb Hp Ht Hm Hf a.
  pose proof MAX_DATE_48 as Hmax.
  destruct (requested_mtime_ms _ _ Ht Hm) as (zm & Hzm & Hrm).
  assert (Ha : exists za, is_ms a za /\ 1 <= za <= 2 ^ 48 - 1).
  { unfold a. destruct (Z.eqb_spec (Z.land (getFlags times) 4) 0) as [Hz | Hnz];
      cbn [negb]; [now exists zm | now apply (requested_atime_ms _ _ Ht)]. }
  destruct Ha as (za & Hza & Hra).
  destruct (nano_utimes_readings p d f a (mtime times) za zm Hf Hza ltac:(lia)
              Hzm ltac:(lia)) as (f' & Hut & Hb & Hmr & Har).
  exists zm, za, f'. repeat (split; [assumption |]).
  assert (Hne : getFlags times <> 0)
    by (intros Hz; rewrite Hz in Hm; now apply Hm).
  split; [| split; [exact Hb | split; [exact Hmr | split; [exact Har |]]]].
  - rewrite (set_requested _ _ [p] times _ (normalizePaths_str p Hp) Ht Hne).
    cbn [set_targets]. unfold then_. rewrite (set_target_mtime Hfb _ _ _ _ Hm).
    fold a. unfold utimes. cbn [fs_utimes nano_host world trace].
    rewrite Hut. reflexivity.
  - unfold nano_stat. rewrite lookup_insert_eq, Hmr. reflexivity.
Qed.

Lemma set_mtime_on_disk_witness :
  set (H := nano_linux) (JStr (str "a")) (JObj [("mtime", ms 2001); ("btime", ms 9000)])
      {| world := {[ str "a" := {| inode_btime := 1000000000;
                                   inode_mtime := 2000123456;
                                   inode_atime := 3000000000 |} ]};
         trace := [] |}
  = (Ok tt,
     {| world := {[ str "a" := {| inode_btime := 1000000000;
                                  inode_mtime := 2000999999;
                                  inode_atime := 2000999999 |} ]};
        trace := [OpUtimes (str "a") (Num (4505851427184181 # 2251799813685248))
                    (Num (4505851427184181 # 2251799813685248))] |}) /\
  ms_reading 2000999999 = 2001.
Proof.
  destruct (set_mtime_on_disk "linux" (str "a")
              (JObj [("mtime", ms 2001); ("btime", ms 9000)])
              {| btime := Num (inject_Z 9000); mtime := Num (inject_Z 2001);
                 atime := Num 0 |}
              {[ str "a" := {| inode_btime := 1000000000; inode_mtime := 2000123456;
                               inode_atime := 3000000000 |} ]}
              {| inode_btime := 1000000000; inode_mtime := 2000123456;
                 inode_atime := 3000000000 |} [])
    as (zm & za & f' & (q & Hq & Hzm) & _ & Hset & _ & Hm & _).
  - reflexivity.
  - intros [Hnil | Hin]; [discriminate Hnil |].
    cbn in Hin. destruct Hin as [Hin | []]. discriminate Hin.
  - reflexivity.
  - vm_compute. discriminate.
  - reflexivity.
  - injection Hq as <-. apply (proj1 (inject_Z_injective 2001 zm)) in Hzm. rewrite <- Hzm in Hm.
    assert (Hc : set (H := nano_linux) (JStr (str "a"))
                   (JObj [("mtime", ms 2001); ("btime", ms 9000)])
                   {| world := {[ str "a" := {| inode_btime := 1000000000;
                                                inode_mtime := 2000123456;
                                                inode_atime := 3000000000 |} ]};
                      trace := [] |}
                 = (Ok tt,
                    {| world := {[ str "a" := {| inode_btime := 1000000000;
                                                 inode_mtime := 2000999999;
                                                 inode_atime := 2000999999 |} ]};
                       trace := [OpUtimes (str "a")
                                   (Num (4505851427184181 # 2251799813685248))
                                   (Num (4505851427184181 # 2251799813685248))] |}))
      by (vm_compute; reflexivity).
    split; [exact Hc |].
    pose proof (f_equal (fun r => world (snd r) !! str "a")
                  (eq_trans (eq_sym Hc) Hset)) as Hw.
    cbv beta in Hw. cbn [snd world] in Hw.
    rewrite lookup_insert_eq, lookup_singleton_eq in Hw. injection Hw as <-.
    exact Hm.
Defined.

(** ** Composition over the target list *)

Section Compose.
Context {W : Type} {H : Host W}.

Lemma set_targets_app times flags : forall t1 t2 (s : State W),
  set_targets (t1 ++ t2) times flags s =
  then_ (set_targets t1 times flags) (fun _ => set_targets t2 times flags) s.
Proof.
  induction t1 as [|target t1 IH]; intros t2 s; [reflexivity |].
  cbn [app set_targets]. unfold then_ at 1 2 3.
  destruct (set_target target times flags s) as [[[]|e] s1]; [| reflexivity].
  rewrite IH. reflexivity.
Qed.

Lemma set_targets_or_empty targets times flags (s : State W) :
  (if Z.of_nat (length targets) =? 0 then (Ok tt, s)
   else set_targets targets times flags s) = set_targets targets times flags s.
Proof. destruct targets; reflexivity. Qed.

(** X12. For two arrays of valid paths, [set] on their concatenation is
    [set] on the first followed, when that succeeds, by [set] on the second
    from the state the first left; when the first fails, the second is not
    started. *)
Theorem set_array_append e1 e2 t1 t2 options (s : State W) :
  normalizePaths (JArr e1) = Ok t1 ->
  normalizePaths (JArr e2) = Ok t2 ->
  set (JArr (e1 ++ e2)) options s =
  then_ (set (JArr e1) options) (fun _ => set (JArr e2) options) s.
Proof.
  intros H1 H2.
  assert (H12 : normalizePaths (JArr (e1 ++ e2)) = Ok (t1 ++ t2)).
  { cbn [normalizePaths] in *.
    rewrite (assertPaths_ok _ _ _ H1), (assertPaths_ok _ _ _ H2), <- map_app.
    apply assertPaths_good, Forall_app.
    split; [apply (assertPaths_ok_good e1 0) | apply (assertPaths_ok_good e2 0)];
      assumption. }
  unfold then_, set. rewrite H1, H2, H12.
  destruct (getFullOptions options) as [times|e]; [| reflexivity].
  destruct (getFlags times =? 0); cbn [orb]; [reflexivity |].
  rewrite !set_targets_or_empty, set_targets_app. unfold then_.
  destruct (set_targets t1 times (getFlags times) s) as [[[]|e] s1]; [| reflexivity].
  now rewrite set_targets_or_empty.
Qed.

End Compose.

Lemma set_array_append_witness :
  set (H := linux) (JArr ([JStr (str "a")] ++ [JStr (str "b"); JStr (str "a")]))
      (JObj [("mtime", ms 7000)]) (start (one_file (str "a") T0))
  = then_ (set (H := linux) (JArr [JStr (str "a")]) (JObj [("mtime", ms 7000)]))
          (fun _ => set (H := linux) (JArr [JStr (str "b"); JStr (str "a")])
                      (JObj [("mtime", ms 7000)]))
          (start (one_file (str "a") T0)).
Proof.
  apply (set_array_append (H := linux) _ _ [str "a"] [str "b"; str "a"]);
    reflexivity.
Defined.

(** ** Refused times *)

(** X14. With valid paths and an options object, a field that is present
    and not a number, not an integer or negative makes [set] fail, before
    any call, with an error whose message starts with the name of that
    field. The fields are checked in the order btime, mtime, atime: a field
    is reported when the fields before it are accepted. *)
Theorem set_time_refused {W} {H : Host W} paths targets props (s : State W) :
  normalizePaths paths = Ok targets ->
  (refused_by_name (assoc "btime" props) ->
     exists e, identifies "btime" e /\ set paths (JObj props) s = (Err e, s)) /\
  (assertTime "btime" (assoc "btime" props) = Ok tt ->
   refused_by_name (assoc "mtime" props) ->
     exists e, identifies "mtime" e /\ set paths (JObj props) s = (Err e, s)) /\
  (assertTime "btime" (assoc "btime" props) = Ok tt ->
   assertTime "mtime" (assoc "mtime" props) = Ok tt ->
   refused_by_name (assoc "atime" props) ->
     exists e, identifies "atime" e /\ set paths (JObj props) s = (Err e, s)).
Proof.
  intros Hp. repeat split.
  - intros [Hu Hr].
    destruct (assertTime_rejects_named "btime" _ Hu Hr) as (e & He & Hid).
    exists e. split; [exact Hid |]. apply (set_options_error _ _ targets); [exact Hp |].
    rewrite getFullOptions_obj, He. reflexivity.
  - intros Hb [Hu Hr].
    destruct (assertTime_rejects_named "mtime" _ Hu Hr) as (e & He & Hid).
    exists e. split; [exact Hid |]. apply (set_options_error _ _ targets); [exact Hp |].
    rewrite getFullOptions_obj, Hb, He. reflexivity.
  - intros Hb Hm [Hu Hr].
    destruct (assertTime_rejects_named "atime" _ Hu Hr) as (e & He & Hid).
    exists e. split; [exact Hid |]. apply (set_options_error _ _ targets); [exact Hp |].
    rewrite getFullOptions_obj, Hb, Hm, He. reflexivity.
Qed.

Lemma set_time_refused_witness :
  exists e, identifies "mtime" e /\
    set (H := linux) (JStr (str "a"))
        (JObj [("mtime", JNum (Num (3 # 2))); ("atime", JStr (str "x"))])
        (start (one_file (str "a") T0))
    = (Err e, start (one_file (str "a") T0)).
Proof.
  apply (set_time_refused (H := linux) (JStr (str "a")) [str "a"]
           [("mtime", JNum (Num (3 # 2))); ("atime", JStr (str "x"))]
           (start (one_file (str "a") T0)) eq_refl).
  - reflexivity.
  - split; [discriminate |]. right. left. eexists. split; reflexivity.
Defined.
